(** * Prompt Enhancer: the interaction orchestrator of [Interaction.jsx]

    A shallow embedding of the React component [Interaction]: its turn
    objects, its state, its event handlers (each split at the [await]s of
    the two remote calls), its effects and the reasoning transform, followed
    by the properties of the workflow.

    JavaScript strings are sequences of UTF-16 code units; [null] and
    [undefined] are both [None]. *)

From Stdlib Require Import List NArith Bool String Ascii Lia.
From Stdlib Require Import Arith Permutation Sorted.
Import ListNotations.

Set Implicit Arguments.
Local Open Scope N_scope.
Local Open Scope list_scope.

(** ** JavaScript strings *)

Definition jsstring := list N.

(** The code units of an ASCII literal. *)
Definition js (s : string) : jsstring :=
  map N_of_ascii (list_ascii_of_string s).

Definition jsstring_dec : forall a b : jsstring, {a = b} + {a <> b} :=
  list_eq_dec N.eq_dec.

Definition str_eqb (a b : jsstring) : bool :=
  if jsstring_dec a b then true else false.

(** Truthiness of a string: every string but the empty one. *)
Definition truthy (s : jsstring) : bool :=
  match s with [] => false | _ :: _ => true end.

(** Truthiness of a nullable string. *)
Definition truthy_opt (o : option jsstring) : bool :=
  match o with Some s => truthy s | None => false end.

(** [x || null] on a nullable string. *)
Definition or_null (o : option jsstring) : option jsstring :=
  if truthy_opt o then o else None.

(** WhiteSpace and LineTerminator of ECMAScript: what [String.prototype.trim]
    removes and what [\s] matches. *)
Definition isWhiteSpace (c : N) : bool :=
  ((9 <=? c) && (c <=? 13)) || (c =? 32) || (c =? 160) || (c =? 5760)
  || ((8192 <=? c) && (c <=? 8202)) || (c =? 8232) || (c =? 8233)
  || (c =? 8239) || (c =? 8287) || (c =? 12288) || (c =? 65279).

Fixpoint trimStart (s : jsstring) : jsstring :=
  match s with
  | [] => []
  | c :: r => if isWhiteSpace c then trimStart r else s
  end.

Fixpoint trimEnd (s : jsstring) : jsstring :=
  match s with
  | [] => []
  | c :: r =>
      match trimEnd r with
      | [] => if isWhiteSpace c then [] else [c]
      | r' => c :: r'
      end
  end.

Definition trim (s : jsstring) : jsstring := trimEnd (trimStart s).

(** [s.split(sep)] for a one-unit separator: never the empty list. *)
Fixpoint split (sep : N) (s : jsstring) : list jsstring :=
  match s with
  | [] => [[]]
  | c :: r =>
      if c =? sep then [] :: split sep r
      else match split sep r with
           | [] => [[c]]
           | h :: t => (c :: h) :: t
           end
  end.

(** [parts.join(sep)]. *)
Fixpoint join (sep : jsstring) (parts : list jsstring) : jsstring :=
  match parts with
  | [] => []
  | [p] => p
  | p :: rest => p ++ sep ++ join sep rest
  end.

(** [s.includes(c)] for a one-unit needle. *)
Definition includes (c : N) (s : jsstring) : bool := existsb (N.eqb c) s.

Definition LF : N := 10.
Definition FULL_STOP : N := 46.
Definition LOW_LINE : N := 95.

(** The character class [[-•*]] of the bullet regular expression. *)
Definition isBulletMarker (c : N) : bool :=
  (c =? 45) || (c =? 8226) || (c =? 42).

(** [line.replace(/^[-•*]\s*/, '')]: the match is anchored at index 0. *)
Definition stripBulletMarker (line : jsstring) : jsstring :=
  match line with
  | c :: r => if isBulletMarker c then trimStart r else line
  | [] => []
  end.

(** ** Turns *)

Inductive Mode := learning | socratic.

Inductive ReasoningStage := classifying | rewritten | answering | done.

Inductive PromptChoice := use_original | use_rewritten | use_edited.

(** [promptFeedback] is a string by [types.ts]; the transform also accepts
    an array. *)
Inductive Feedback :=
| FeedbackText (s : jsstring)
| FeedbackList (l : list jsstring).

Record Turn := {
  id : jsstring;
  conversationId : option jsstring;
  originalPrompt : jsstring;
  mode : option Mode;
  intent : option jsstring;
  topic : option jsstring;
  rewritten_prompt : option jsstring;
  rewrite_strategy : option jsstring;
  edited_prompt : option jsstring;
  final_answer : option jsstring;
  decisionRationale : option jsstring;
  promptFeedback : option Feedback;
  reasoningStage : option ReasoningStage;
  chosenPromptVersion : option PromptChoice;
  interaction_id : option jsstring;
  showReasoning : option bool
}.

Definition truthy_feedback (o : option Feedback) : bool :=
  match o with
  | Some (FeedbackText s) => truthy s
  | Some (FeedbackList _) => true
  | None => false
  end.

(** ** Reasoning transform *)

Module ReasoningData.
Record t := {
  intent : jsstring;
  topic : jsstring;
  summary : jsstring;
  reasoningBullets : list jsstring;
  originalPrompt : jsstring;
  rewrittenPrompt : jsstring
}.
End ReasoningData.

Definition or_empty (o : option jsstring) : jsstring :=
  match o with Some s => s | None => [] end.

Section ReasoningTransform.

(** [String.prototype.toUpperCase], the case mapping of the runtime. *)
Variable toUpperCase : jsstring -> jsstring.

(** [w.charAt(0).toUpperCase() + w.slice(1)] *)
Definition capitalize (w : jsstring) : jsstring :=
  toUpperCase (firstn 1 w) ++ skipn 1 w.

(** [intent.split('_').map(capitalize).join(' ')] *)
Definition formatWords (intent : jsstring) : jsstring :=
  join (js " ") (map capitalize (split LOW_LINE intent)).

Definition formatIntent (intent : option jsstring) : jsstring :=
  match intent with
  | None => js "Loading..."
  | Some i =>
      if negb (truthy i) || str_eqb i (js "loading") then js "Loading..."
      else if str_eqb i (js "error") then js "Error"
      else formatWords i
  end.

(** The bullets of a feedback string. *)
Definition bulletsOfText (text : jsstring) : list jsstring :=
  let lines := filter (fun line => truthy (trim line)) (split LF text) in
  let bullets :=
    filter truthy (map (fun line => trim (stripBulletMarker line)) lines) in
  if Nat.eqb (List.length bullets) 0 && truthy (trim text)
  then [trim text] else bullets.

Definition reasoningBulletsOf (fb : option Feedback) : list jsstring :=
  if truthy_feedback fb then
    match fb with
    | Some (FeedbackList l) => l
    | Some (FeedbackText s) => bulletsOfText s
    | None => []
    end
  else [].

Definition summaryOf (rationale intent : option jsstring) : jsstring :=
  if truthy_opt rationale then
    let r := or_empty rationale in
    let firstSentence := hd [] (split FULL_STOP r) in
    firstSentence ++ (if includes FULL_STOP r then js "." else [])
  else
    let intentFormatted :=
      if truthy_opt intent then formatWords (or_empty intent)
      else js "understanding" in
    js "The agent interpreted your prompt as seeking "
      ++ intentFormatted ++ js ".".

Definition transformTurnToReasoningData (turn : option Turn)
  : option ReasoningData.t :=
  match turn with
  | None => None
  | Some t =>
      Some {| ReasoningData.intent := or_empty (or_null (intent t));
              ReasoningData.topic := or_empty (or_null (topic t));
              ReasoningData.summary := summaryOf (decisionRationale t) (intent t);
              ReasoningData.reasoningBullets := reasoningBulletsOf (promptFeedback t);
              ReasoningData.originalPrompt := originalPrompt t;
              ReasoningData.rewrittenPrompt := or_empty (or_null (rewritten_prompt t)) |}
  end.

End ReasoningTransform.

(** ** Conversations and component state *)

Module Conversation.
Record t := {
  turns : list Turn;
  title : jsstring;
  updatedAt : N
}.
End Conversation.

(** A JavaScript object used as a map from conversation id to conversation,
    kept in [Object.keys] order.  Conversation ids are taken not to be
    canonical array indices, so a new key is enumerated last. *)
Definition ConversationMap := list (jsstring * Conversation.t).

Fixpoint objGet (k : jsstring) (m : ConversationMap) : option Conversation.t :=
  match m with
  | [] => None
  | (k', v) :: r => if str_eqb k' k then Some v else objGet k r
  end.

(** [{...m, [k]: v}]: an existing key keeps its place. *)
Fixpoint objSet (k : jsstring) (v : Conversation.t) (m : ConversationMap)
  : ConversationMap :=
  match m with
  | [] => [(k, v)]
  | (k', v') :: r =>
      if str_eqb k' k then (k', v) :: r else (k', v') :: objSet k v r
  end.

(** [delete m[k]] *)
Definition objDelete (k : jsstring) (m : ConversationMap) : ConversationMap :=
  filter (fun e => negb (str_eqb (fst e) k)) m.

Definition objKeys (m : ConversationMap) : list jsstring := map fst m.

Module DeleteDialog.
Record t := { isOpen : bool; conversationId : option jsstring }.
End DeleteDialog.

(** The [useState] cells of [Interaction] that its handlers read or that
    hold turns; [loading], [error] and [regenerating] only drive the
    presentation and are left out. *)
Module Ui.
Record State := {
  prompt : jsstring;
  enhancerEnabled : bool;
  mode : Mode;
  turns : list Turn;
  conversationId : option jsstring;
  conversations : ConversationMap;
  modalTurnId : option jsstring;
  draftRewrite : jsstring;
  pendingTurn : option Turn;
  deleteConfirmDialog : DeleteDialog.t
}.

(** The initial values of the [useState] calls. *)
Definition initial : State :=
  {| prompt := []; enhancerEnabled := true; mode := learning; turns := [];
     conversationId := None; conversations := []; modalTurnId := None;
     draftRewrite := []; pendingTurn := None;
     deleteConfirmDialog :=
       {| DeleteDialog.isOpen := false; DeleteDialog.conversationId := None |} |}.
End Ui.

Definition setPrompt (v : jsstring) (s : Ui.State) : Ui.State :=
  {| Ui.prompt := v; Ui.enhancerEnabled := Ui.enhancerEnabled s;
     Ui.mode := Ui.mode s; Ui.turns := Ui.turns s;
     Ui.conversationId := Ui.conversationId s;
     Ui.conversations := Ui.conversations s;
     Ui.modalTurnId := Ui.modalTurnId s; Ui.draftRewrite := Ui.draftRewrite s;
     Ui.pendingTurn := Ui.pendingTurn s;
     Ui.deleteConfirmDialog := Ui.deleteConfirmDialog s |}.

Definition setEnhancerEnabled (v : bool) (s : Ui.State) : Ui.State :=
  {| Ui.prompt := Ui.prompt s; Ui.enhancerEnabled := v;
     Ui.mode := Ui.mode s; Ui.turns := Ui.turns s;
     Ui.conversationId := Ui.conversationId s;
     Ui.conversations := Ui.conversations s;
     Ui.modalTurnId := Ui.modalTurnId s; Ui.draftRewrite := Ui.draftRewrite s;
     Ui.pendingTurn := Ui.pendingTurn s;
     Ui.deleteConfirmDialog := Ui.deleteConfirmDialog s |}.

Definition setMode (v : Mode) (s : Ui.State) : Ui.State :=
  {| Ui.prompt := Ui.prompt s; Ui.enhancerEnabled := Ui.enhancerEnabled s;
     Ui.mode := v; Ui.turns := Ui.turns s;
     Ui.conversationId := Ui.conversationId s;
     Ui.conversations := Ui.conversations s;
     Ui.modalTurnId := Ui.modalTurnId s; Ui.draftRewrite := Ui.draftRewrite s;
     Ui.pendingTurn := Ui.pendingTurn s;
     Ui.deleteConfirmDialog := Ui.deleteConfirmDialog s |}.

Definition setTurns (v : list Turn) (s : Ui.State) : Ui.State :=
  {| Ui.prompt := Ui.prompt s; Ui.enhancerEnabled := Ui.enhancerEnabled s;
     Ui.mode := Ui.mode s; Ui.turns := v;
     Ui.conversationId := Ui.conversationId s;
     Ui.conversations := Ui.conversations s;
     Ui.modalTurnId := Ui.modalTurnId s; Ui.draftRewrite := Ui.draftRewrite s;
     Ui.pendingTurn := Ui.pendingTurn s;
     Ui.deleteConfirmDialog := Ui.deleteConfirmDialog s |}.

Definition setConversationId (v : option jsstring) (s : Ui.State) : Ui.State :=
  {| Ui.prompt := Ui.prompt s; Ui.enhancerEnabled := Ui.enhancerEnabled s;
     Ui.mode := Ui.mode s; Ui.turns := Ui.turns s;
     Ui.conversationId := v;
     Ui.conversations := Ui.conversations s;
     Ui.modalTurnId := Ui.modalTurnId s; Ui.draftRewrite := Ui.draftRewrite s;
     Ui.pendingTurn := Ui.pendingTurn s;
     Ui.deleteConfirmDialog := Ui.deleteConfirmDialog s |}.

Definition setConversations (v : ConversationMap) (s : Ui.State) : Ui.State :=
  {| Ui.prompt := Ui.prompt s; Ui.enhancerEnabled := Ui.enhancerEnabled s;
     Ui.mode := Ui.mode s; Ui.turns := Ui.turns s;
     Ui.conversationId := Ui.conversationId s;
     Ui.conversations := v;
     Ui.modalTurnId := Ui.modalTurnId s; Ui.draftRewrite := Ui.draftRewrite s;
     Ui.pendingTurn := Ui.pendingTurn s;
     Ui.deleteConfirmDialog := Ui.deleteConfirmDialog s |}.

Definition setModalTurnId (v : option jsstring) (s : Ui.State) : Ui.State :=
  {| Ui.prompt := Ui.prompt s; Ui.enhancerEnabled := Ui.enhancerEnabled s;
     Ui.mode := Ui.mode s; Ui.turns := Ui.turns s;
     Ui.conversationId := Ui.conversationId s;
     Ui.conversations := Ui.conversations s;
     Ui.modalTurnId := v; Ui.draftRewrite := Ui.draftRewrite s;
     Ui.pendingTurn := Ui.pendingTurn s;
     Ui.deleteConfirmDialog := Ui.deleteConfirmDialog s |}.

Definition setDraftRewrite (v : jsstring) (s : Ui.State) : Ui.State :=
  {| Ui.prompt := Ui.prompt s; Ui.enhancerEnabled := Ui.enhancerEnabled s;
     Ui.mode := Ui.mode s; Ui.turns := Ui.turns s;
     Ui.conversationId := Ui.conversationId s;
     Ui.conversations := Ui.conversations s;
     Ui.modalTurnId := Ui.modalTurnId s; Ui.draftRewrite := v;
     Ui.pendingTurn := Ui.pendingTurn s;
     Ui.deleteConfirmDialog := Ui.deleteConfirmDialog s |}.

Definition setPendingTurn (v : option Turn) (s : Ui.State) : Ui.State :=
  {| Ui.prompt := Ui.prompt s; Ui.enhancerEnabled := Ui.enhancerEnabled s;
     Ui.mode := Ui.mode s; Ui.turns := Ui.turns s;
     Ui.conversationId := Ui.conversationId s;
     Ui.conversations := Ui.conversations s;
     Ui.modalTurnId := Ui.modalTurnId s; Ui.draftRewrite := Ui.draftRewrite s;
     Ui.pendingTurn := v;
     Ui.deleteConfirmDialog := Ui.deleteConfirmDialog s |}.

Definition setDeleteConfirmDialog (v : DeleteDialog.t) (s : Ui.State)
  : Ui.State :=
  {| Ui.prompt := Ui.prompt s; Ui.enhancerEnabled := Ui.enhancerEnabled s;
     Ui.mode := Ui.mode s; Ui.turns := Ui.turns s;
     Ui.conversationId := Ui.conversationId s;
     Ui.conversations := Ui.conversations s;
     Ui.modalTurnId := Ui.modalTurnId s; Ui.draftRewrite := Ui.draftRewrite s;
     Ui.pendingTurn := Ui.pendingTurn s;
     Ui.deleteConfirmDialog := v |}.

(** ** The two remote calls *)

Module InteractResponse.
(** [InteractResponse] of [types.ts], with the [showReasoning] flag the
    component reads. *)
Record t := {
  interaction_id : jsstring;
  conversationId : jsstring;
  intent : option jsstring;
  topic : option jsstring;
  rewritten_prompt : option jsstring;
  rewrite_strategy : option jsstring;
  decisionRationale : jsstring;
  promptFeedback : option jsstring;
  final_answer : option jsstring;
  showReasoning : option bool
}.
End InteractResponse.

Module InteractRequest.
Record t := {
  prompt : jsstring;
  enhancerEnabled : bool;
  mode : option Mode;
  conversationId : option jsstring
}.
End InteractRequest.

Module AnswerRequest.
Record t := {
  prompt : jsstring;
  mode : option Mode;
  intent : option jsstring;
  topic : option jsstring;
  interaction_id : option jsstring;
  conversationId : option jsstring;
  chosen_version : PromptChoice;
  original_prompt : jsstring;
  rewritten_prompt : option jsstring
}.
End AnswerRequest.

(** A [fetch] issued by a handler. *)
Inductive Request :=
| PostInteract (body : InteractRequest.t)
| PostAnswer (body : AnswerRequest.t).

(** ** Turn updates: the object spreads of the handlers *)

Definition PromptChoice_eqb (a b : PromptChoice) : bool :=
  match a, b with
  | use_original, use_original
  | use_rewritten, use_rewritten
  | use_edited, use_edited => true
  | _, _ => false
  end.

Definition opt_str_eqb (a b : option jsstring) : bool :=
  match a, b with
  | Some x, Some y => str_eqb x y
  | None, None => true
  | _, _ => false
  end.

(** [`Error: ${err.message}`] *)
Definition errorSentinel (message : jsstring) : jsstring :=
  js "Error: " ++ message.

(** [ts.map(t => t.id === turnId ? f(t) : t)] *)
Definition mapTurn (turnId : jsstring) (f : Turn -> Turn) (ts : list Turn)
  : list Turn :=
  map (fun t => if str_eqb (id t) turnId then f t else t) ts.

(** [{...t, final_answer, reasoningStage: 'done'}] of a resolved answer call *)
Definition withFinalAnswer (answer : option jsstring) (t : Turn) : Turn :=
  {| id := id t; conversationId := conversationId t;
     originalPrompt := originalPrompt t; mode := mode t; intent := intent t;
     topic := topic t; rewritten_prompt := rewritten_prompt t;
     rewrite_strategy := rewrite_strategy t; edited_prompt := edited_prompt t;
     final_answer := answer;
     decisionRationale := decisionRationale t;
     promptFeedback := promptFeedback t;
     reasoningStage := Some done;
     chosenPromptVersion := chosenPromptVersion t;
     interaction_id := interaction_id t; showReasoning := showReasoning t |}.

(** The [catch] branches of the answer calls. *)
Definition withError (message : jsstring) (t : Turn) : Turn :=
  withFinalAnswer (Some (errorSentinel message)) t.

(** The update of [handleSubmit] when the enhancer is off and [/interact]
    resolves. *)
Definition withDirectAnswer (data : InteractResponse.t) (t : Turn) : Turn :=
  {| id := id t;
     conversationId := Some (InteractResponse.conversationId data);
     originalPrompt := originalPrompt t; mode := mode t; intent := intent t;
     topic := topic t; rewritten_prompt := rewritten_prompt t;
     rewrite_strategy := rewrite_strategy t; edited_prompt := edited_prompt t;
     final_answer := InteractResponse.final_answer data;
     decisionRationale := Some (InteractResponse.decisionRationale data);
     promptFeedback := promptFeedback t;
     reasoningStage := Some done;
     chosenPromptVersion := chosenPromptVersion t;
     interaction_id := Some (InteractResponse.interaction_id data);
     showReasoning :=
       Some (match InteractResponse.showReasoning data with
             | Some b => b | None => false end) |}.

(** The update of the pending turn when [/interact] resolves. *)
Definition withRewrite (data : InteractResponse.t) (t : Turn) : Turn :=
  {| id := id t;
     conversationId := Some (InteractResponse.conversationId data);
     originalPrompt := originalPrompt t; mode := mode t;
     intent := InteractResponse.intent data;
     topic := InteractResponse.topic data;
     rewritten_prompt := InteractResponse.rewritten_prompt data;
     rewrite_strategy := InteractResponse.rewrite_strategy data;
     edited_prompt := edited_prompt t;
     final_answer := final_answer t;
     decisionRationale := Some (InteractResponse.decisionRationale data);
     promptFeedback :=
       option_map FeedbackText (InteractResponse.promptFeedback data);
     reasoningStage := Some rewritten;
     chosenPromptVersion := chosenPromptVersion t;
     interaction_id := Some (InteractResponse.interaction_id data);
     showReasoning :=
       Some (match InteractResponse.showReasoning data with
             | Some b => b | None => true end) |}.

(** The update of the pending turn when [/interact] fails. *)
Definition withClassificationError (message : jsstring) (t : Turn) : Turn :=
  {| id := id t; conversationId := conversationId t;
     originalPrompt := originalPrompt t; mode := mode t;
     intent := Some (js "error");
     topic := Some [];
     rewritten_prompt := None;
     rewrite_strategy := None;
     edited_prompt := edited_prompt t;
     final_answer := Some (errorSentinel message);
     decisionRationale := decisionRationale t;
     promptFeedback := promptFeedback t;
     reasoningStage := Some done;
     chosenPromptVersion := chosenPromptVersion t;
     interaction_id := interaction_id t; showReasoning := showReasoning t |}.

(** The update of [choosePromptVersion] before the answer call. *)
Definition withChoice (actualVersion : PromptChoice)
    (finalEditedPrompt : option jsstring) (t : Turn) : Turn :=
  {| id := id t; conversationId := conversationId t;
     originalPrompt := originalPrompt t; mode := mode t; intent := intent t;
     topic := topic t; rewritten_prompt := rewritten_prompt t;
     rewrite_strategy := rewrite_strategy t;
     edited_prompt := finalEditedPrompt;
     final_answer := None;
     decisionRationale := decisionRationale t;
     promptFeedback := promptFeedback t;
     reasoningStage := Some answering;
     chosenPromptVersion := Some actualVersion;
     interaction_id := interaction_id t; showReasoning := showReasoning t |}.

(** The update of [handleRegenerate] on a turn of the chat feed. *)
Definition withRegenerated (data : InteractResponse.t) (t : Turn) : Turn :=
  {| id := id t; conversationId := conversationId t;
     originalPrompt := originalPrompt t; mode := mode t; intent := intent t;
     topic := topic t;
     rewritten_prompt := or_null (InteractResponse.rewritten_prompt data);
     rewrite_strategy := InteractResponse.rewrite_strategy data;
     edited_prompt := None;
     final_answer := final_answer t;
     decisionRationale := Some (InteractResponse.decisionRationale data);
     promptFeedback :=
       option_map FeedbackText (InteractResponse.promptFeedback data);
     reasoningStage := reasoningStage t;
     chosenPromptVersion := chosenPromptVersion t;
     interaction_id := interaction_id t; showReasoning := showReasoning t |}.

(** The update of [handleRegenerate] on the pending turn: it also takes the
    new interaction id. *)
Definition withRegeneratedPending (data : InteractResponse.t) (t : Turn)
  : Turn :=
  {| id := id t; conversationId := conversationId t;
     originalPrompt := originalPrompt t; mode := mode t; intent := intent t;
     topic := topic t;
     rewritten_prompt := or_null (InteractResponse.rewritten_prompt data);
     rewrite_strategy := InteractResponse.rewrite_strategy data;
     edited_prompt := None;
     final_answer := final_answer t;
     decisionRationale := Some (InteractResponse.decisionRationale data);
     promptFeedback :=
       option_map FeedbackText (InteractResponse.promptFeedback data);
     reasoningStage := reasoningStage t;
     chosenPromptVersion := chosenPromptVersion t;
     interaction_id := Some (InteractResponse.interaction_id data);
     showReasoning := showReasoning t |}.

(** The defaults given to a stored turn when it is put back on display
    ([switchConversation] and the load effect).  A missing [showReasoning]
    is inferred.  [null] and [undefined] are not told apart: a stored turn
    is taken to carry its [intent] key, as every turn written by this
    component does (and with a [showReasoning] flag, so that nothing is
    inferred for it).  For a turn of an older format without the [intent]
    key the source infers [true] from [turn.intent !== null], where this
    definition infers from the strategy alone. *)
Definition rehydrate (t : Turn) : Turn :=
  {| id := id t; conversationId := conversationId t;
     originalPrompt := originalPrompt t; mode := mode t; intent := intent t;
     topic := topic t; rewritten_prompt := rewritten_prompt t;
     rewrite_strategy := or_null (rewrite_strategy t);
     edited_prompt := or_null (edited_prompt t);
     final_answer := final_answer t;
     decisionRationale := or_null (decisionRationale t);
     promptFeedback :=
       if truthy_feedback (promptFeedback t) then promptFeedback t else None;
     reasoningStage :=
       match reasoningStage t with Some st => Some st | None => Some done end;
     chosenPromptVersion := chosenPromptVersion t;
     interaction_id := or_null (interaction_id t);
     showReasoning :=
       match showReasoning t with
       | Some b => Some b
       | None =>
           Some (match rewrite_strategy t with Some _ => true | None => false end
                 || match intent t with Some _ => true | None => false end)
       end |}.

(** ** Handlers *)

(** [pendingTurn?.id === turnId ? pendingTurn : turns.find(t => t.id === turnId)] *)
Definition findTurn (turnId : jsstring) (s : Ui.State) : option Turn :=
  match Ui.pendingTurn s with
  | Some p =>
      if str_eqb (id p) turnId then Some p
      else find (fun t => str_eqb (id t) turnId) (Ui.turns s)
  | None => find (fun t => str_eqb (id t) turnId) (Ui.turns s)
  end.

(** [pendingTurn && pendingTurn.id === turnId] *)
Definition isPending (turnId : jsstring) (s : Ui.State) : bool :=
  match Ui.pendingTurn s with
  | Some p => str_eqb (id p) turnId
  | None => false
  end.

(** [conversationId || 'pending'] *)
Definition orPendingId (c : option jsstring) : jsstring :=
  if truthy_opt c then or_empty c else js "pending".

(** [handleSubmit] up to its [await]; [turnId] is the identifier drawn from
    the clock and the random source.  Returns the calls issued. *)
Definition handleSubmit (turnId : jsstring) (s : Ui.State)
  : Ui.State * list Request :=
  if negb (truthy (trim (Ui.prompt s))) then (s, [])
  else
    let currentPrompt := Ui.prompt s in
    let currentMode := Ui.mode s in
    if negb (Ui.enhancerEnabled s) then
      let newTurn :=
        {| id := turnId;
           conversationId := Some (orPendingId (Ui.conversationId s));
           originalPrompt := currentPrompt; mode := None; intent := None;
           topic := None; rewritten_prompt := None; rewrite_strategy := None;
           edited_prompt := None; final_answer := None;
           decisionRationale := None; promptFeedback := None;
           reasoningStage := Some answering;
           chosenPromptVersion := Some use_original;
           interaction_id := None; showReasoning := Some false |} in
      (setPrompt [] (setTurns (Ui.turns s ++ [newTurn]) s),
       [PostInteract {| InteractRequest.prompt := currentPrompt;
                        InteractRequest.enhancerEnabled := false;
                        InteractRequest.mode := None;
                        InteractRequest.conversationId := Ui.conversationId s |}])
    else
      let newTurn :=
        {| id := turnId;
           conversationId := Some (orPendingId (Ui.conversationId s));
           originalPrompt := currentPrompt; mode := Some currentMode;
           intent := None; topic := None; rewritten_prompt := None;
           rewrite_strategy := None; edited_prompt := None;
           final_answer := None; decisionRationale := None;
           promptFeedback := None;
           reasoningStage := Some classifying;
           chosenPromptVersion := None;
           interaction_id := None; showReasoning := Some true |} in
      (setDraftRewrite []
         (setModalTurnId (Some turnId) (setPendingTurn (Some newTurn) s)),
       [PostInteract {| InteractRequest.prompt := currentPrompt;
                        InteractRequest.enhancerEnabled := true;
                        InteractRequest.mode := Some currentMode;
                        InteractRequest.conversationId := Ui.conversationId s |}]).

(** [if (newConversationId && newConversationId !== conversationId)
    setConversationId(newConversationId)], with [conversationId] read from
    the render the handler was started in. *)
Definition adoptConversationId (render : Ui.State) (data : InteractResponse.t)
    (s : Ui.State) : Ui.State :=
  let newConversationId := InteractResponse.conversationId data in
  if truthy newConversationId
     && negb (opt_str_eqb (Some newConversationId) (Ui.conversationId render))
  then setConversationId (Some newConversationId) s else s.

(** [handleSubmit] with the enhancer off, after [/interact] resolved. *)
Definition handleSubmit_direct_resolved (render : Ui.State)
    (turnId : jsstring) (data : InteractResponse.t) (s : Ui.State) : Ui.State :=
  let s1 := adoptConversationId render data s in
  setTurns (mapTurn turnId (withDirectAnswer data) (Ui.turns s1)) s1.

(** [handleSubmit] with the enhancer off, [catch] branch. *)
Definition handleSubmit_direct_rejected (turnId message : jsstring)
    (s : Ui.State) : Ui.State :=
  setTurns (mapTurn turnId (withError message) (Ui.turns s)) s.

(** [handleSubmit] with the enhancer on, after [/interact] resolved: the
    update lands on whatever turn is pending then. *)
Definition handleSubmit_resolved (render : Ui.State)
    (data : InteractResponse.t) (s : Ui.State) : Ui.State :=
  let s1 := adoptConversationId render data s in
  let s2 := setPendingTurn (option_map (withRewrite data) (Ui.pendingTurn s1)) s1 in
  if truthy_opt (InteractResponse.rewritten_prompt data)
  then setDraftRewrite (or_empty (InteractResponse.rewritten_prompt data)) s2
  else s2.

(** [handleSubmit] with the enhancer on, [catch] branch. *)
Definition handleSubmit_rejected (message : jsstring) (s : Ui.State)
  : Ui.State :=
  setPendingTurn
    (option_map (withClassificationError message) (Ui.pendingTurn s)) s.

Definition closeCompareModal (s : Ui.State) : Ui.State :=
  let s1 :=
    match Ui.pendingTurn s with
    | Some p => if truthy (originalPrompt p) then setPrompt (originalPrompt p) s
                else s
    | None => s
    end in
  setPendingTurn None (setDraftRewrite [] (setModalTurnId None s1)).

(** The constants of [choosePromptVersion]. *)
Definition isEdited (turn : Turn) (currentDraftValue : jsstring) : bool :=
  truthy_opt (rewritten_prompt turn)
  && negb (opt_str_eqb (Some currentDraftValue) (rewritten_prompt turn))
  && negb (str_eqb currentDraftValue []).

Definition actualVersion (version : PromptChoice) (edited : bool)
  : PromptChoice :=
  if PromptChoice_eqb version use_rewritten
     || PromptChoice_eqb version use_edited then
    if PromptChoice_eqb version use_edited
       || (PromptChoice_eqb version use_rewritten && edited)
    then (if edited then use_edited else use_rewritten)
    else use_rewritten
  else version.

Definition finalEditedPrompt (actual : PromptChoice) (edited : bool)
    (currentDraftValue : jsstring) : option jsstring :=
  if PromptChoice_eqb actual use_edited || edited
  then Some currentDraftValue else None.

Definition promptForAnswer (turn : Turn) (actual : PromptChoice)
    (finalEdited : option jsstring) : jsstring :=
  if PromptChoice_eqb actual use_edited && truthy_opt finalEdited
  then or_empty finalEdited
  else if PromptChoice_eqb actual use_rewritten
          && truthy_opt (rewritten_prompt turn)
  then or_empty (rewritten_prompt turn)
  else originalPrompt turn.

(** [choosePromptVersion] up to its [await]; the draft is the
    [draftRewrite] cell. *)
Definition choosePromptVersion (turnId : jsstring) (version : PromptChoice)
    (s : Ui.State) : Ui.State * list Request :=
  let currentDraftValue := trim (Ui.draftRewrite s) in
  let s1 := setPrompt [] (setDraftRewrite [] (setModalTurnId None s)) in
  match findTurn turnId s with
  | None => (s1, [])
  | Some turn =>
      let edited := isEdited turn currentDraftValue in
      let actual := actualVersion version edited in
      let finalEdited := finalEditedPrompt actual edited currentDraftValue in
      let s2 :=
        match Ui.pendingTurn s with
        | Some p =>
            if str_eqb (id p) turnId
            then setPendingTurn None
                   (setTurns (Ui.turns s1 ++ [withChoice actual finalEdited p]) s1)
            else setTurns
                   (mapTurn turnId (withChoice actual finalEdited) (Ui.turns s1)) s1
        | None =>
            setTurns
              (mapTurn turnId (withChoice actual finalEdited) (Ui.turns s1)) s1
        end in
      (s2,
       [PostAnswer
          {| AnswerRequest.prompt := promptForAnswer turn actual finalEdited;
             AnswerRequest.mode := mode turn;
             AnswerRequest.intent := intent turn;
             AnswerRequest.topic := topic turn;
             AnswerRequest.interaction_id := interaction_id turn;
             AnswerRequest.conversationId := conversationId turn;
             AnswerRequest.chosen_version := actual;
             AnswerRequest.original_prompt := originalPrompt turn;
             AnswerRequest.rewritten_prompt := rewritten_prompt turn |}])
  end.

(** [choosePromptVersion] after [/answer] resolved. *)
Definition choosePromptVersion_resolved (turnId : jsstring)
    (answer : option jsstring) (s : Ui.State) : Ui.State * list Request :=
  (setTurns (mapTurn turnId (withFinalAnswer answer) (Ui.turns s)) s, []).

(** [choosePromptVersion], [catch] branch: the error is stored and no call
    follows. *)
Definition choosePromptVersion_rejected (turnId message : jsstring)
    (s : Ui.State) : Ui.State * list Request :=
  (setTurns (mapTurn turnId (withError message) (Ui.turns s)) s, []).

(** [handleRegenerate] up to its [await]. *)
Definition handleRegenerate (turnId : jsstring) (s : Ui.State)
  : Ui.State * list Request :=
  match findTurn turnId s with
  | None => (s, [])
  | Some turn =>
      match mode turn with
      | None => (s, [])
      | Some m =>
          (s, [PostInteract
                 {| InteractRequest.prompt := originalPrompt turn;
                    InteractRequest.enhancerEnabled := true;
                    InteractRequest.mode := Some m;
                    InteractRequest.conversationId := conversationId turn |}])
      end
  end.

(** [handleRegenerate] after [/interact] resolved; which branch is taken is
    decided on the pending turn of the render the handler was started in. *)
Definition handleRegenerate_resolved (render : Ui.State) (turnId : jsstring)
    (data : InteractResponse.t) (s : Ui.State) : Ui.State :=
  let newRewrittenPrompt := or_null (InteractResponse.rewritten_prompt data) in
  let s1 :=
    if isPending turnId render
    then setPendingTurn
           (option_map (withRegeneratedPending data) (Ui.pendingTurn s)) s
    else setTurns (mapTurn turnId (withRegenerated data) (Ui.turns s)) s in
  setDraftRewrite (or_empty newRewrittenPrompt) s1.

(** [handleRegenerate], [catch] branch: an alert, no state change. *)
Definition handleRegenerate_rejected (s : Ui.State) : Ui.State := s.

(** ** Conversation management and persistence *)

(** The filter of the save and load effects:
    [turn.final_answer !== '__LOADING__' && turn.intent !== 'loading']. *)
Definition isCompleteTurn (turn : Turn) : bool :=
  negb (opt_str_eqb (final_answer turn) (Some (js "__LOADING__")))
  && negb (opt_str_eqb (intent turn) (Some (js "loading"))).

(** The title given to a conversation by the save effect. *)
Definition titleOf (completeTurns : list Turn) : jsstring :=
  let firstPrompt :=
    match completeTurns with
    | t :: _ => if truthy (originalPrompt t) then originalPrompt t
                else js "New Conversation"
    | [] => js "New Conversation"
    end in
  if Nat.ltb 50 (List.length firstPrompt)
  then firstn 50 firstPrompt ++ js "..." else firstPrompt.

(** The effect on [[turns, conversationId]]: save the turns of the current
    conversation; [now] is [Date.now()]. *)
Definition saveTurnsEffect (now : N) (s : Ui.State) : Ui.State :=
  if negb (truthy_opt (Ui.conversationId s)) then s
  else
    let completeTurns := filter isCompleteTurn (Ui.turns s) in
    if Nat.ltb 0 (List.length completeTurns) then
      setConversations
        (objSet (or_empty (Ui.conversationId s))
           {| Conversation.turns := completeTurns;
              Conversation.title := titleOf completeTurns;
              Conversation.updatedAt := now |}
           (Ui.conversations s)) s
    else s.

Definition startNewConversation (s : Ui.State) : Ui.State :=
  setTurns [] (setConversationId None s).

(** [switchConversation]; [conversationId] and [conversations] are read from
    the render the calling handler was started in. *)
Definition switchConversation (render : Ui.State)
    (targetConversationId : jsstring) (s : Ui.State) : Ui.State :=
  if opt_str_eqb (Some targetConversationId) (Ui.conversationId render) then s
  else
    match objGet targetConversationId (Ui.conversations render) with
    | Some targetConversation =>
        setTurns (map rehydrate (Conversation.turns targetConversation))
          (setConversationId (Some targetConversationId) s)
    | None => s
    end.

Definition deleteConversation (targetConversationId : jsstring) (s : Ui.State)
  : Ui.State :=
  setDeleteConfirmDialog
    {| DeleteDialog.isOpen := true;
       DeleteDialog.conversationId := Some targetConversationId |} s.

Definition handleConfirmDelete (s : Ui.State) : Ui.State :=
  if negb (truthy_opt (DeleteDialog.conversationId (Ui.deleteConfirmDialog s)))
  then s
  else
    let targetConversationId :=
      or_empty (DeleteDialog.conversationId (Ui.deleteConfirmDialog s)) in
    let s1 :=
      setConversations (objDelete targetConversationId (Ui.conversations s)) s in
    let s2 :=
      if opt_str_eqb (Some targetConversationId) (Ui.conversationId s) then
        let remainingIds :=
          filter (fun k => negb (str_eqb k targetConversationId))
                 (objKeys (Ui.conversations s)) in
        if Nat.ltb 0 (List.length remainingIds)
        then switchConversation s (last remainingIds []) s1
        else startNewConversation s1
      else s1 in
    setDeleteConfirmDialog
      {| DeleteDialog.isOpen := false; DeleteDialog.conversationId := None |} s2.

Definition handleCancelDelete (s : Ui.State) : Ui.State :=
  setDeleteConfirmDialog
    {| DeleteDialog.isOpen := false; DeleteDialog.conversationId := None |} s.

(** [getConversationList]: the sidebar order, most recently updated first
    (a stable sort). *)
Fixpoint insertByUpdatedAt (e : jsstring * Conversation.t)
    (l : list (jsstring * Conversation.t)) : list (jsstring * Conversation.t) :=
  match l with
  | [] => [e]
  | x :: r =>
      if Conversation.updatedAt (snd x) <=? Conversation.updatedAt (snd e)
      then e :: l else x :: insertByUpdatedAt e r
  end.

Definition sortByUpdatedAt (m : ConversationMap) : ConversationMap :=
  fold_right insertByUpdatedAt [] m.

Definition getConversationList (s : Ui.State) : ConversationMap :=
  sortByUpdatedAt (Ui.conversations s).

(** The two keys of [localStorage], after [JSON.parse]. *)
Module Storage.
Record t := {
  conversations : option ConversationMap;
  activeConversation : option jsstring
}.
End Storage.

(** The effects on [[conversations]] and on [[conversationId]]. *)
Definition saveConversationsEffect (s : Ui.State) (st : Storage.t)
  : Storage.t :=
  {| Storage.conversations :=
       if Nat.ltb 0 (List.length (objKeys (Ui.conversations s)))
       then Some (Ui.conversations s) else None;
     Storage.activeConversation := Storage.activeConversation st |}.

Definition saveActiveConversationEffect (s : Ui.State) (st : Storage.t)
  : Storage.t :=
  {| Storage.conversations := Storage.conversations st;
     Storage.activeConversation :=
       if truthy_opt (Ui.conversationId s) then Ui.conversationId s else None |}.

Definition persist (s : Ui.State) (st : Storage.t) : Storage.t :=
  saveActiveConversationEffect s (saveConversationsEffect s st).

(** The mount effect: load conversations and the active conversation. *)
Definition loadOnMount (st : Storage.t) (s : Ui.State) : Ui.State :=
  let s1 :=
    match Storage.conversations st with
    | Some parsed => setConversations parsed s
    | None => s
    end in
  if truthy_opt (Storage.activeConversation st) then
    let activeId := or_empty (Storage.activeConversation st) in
    match Storage.conversations st with
    | Some parsed =>
        match objGet activeId parsed with
        | Some conv =>
            setTurns
              (map rehydrate (filter isCompleteTurn (Conversation.turns conv)))
              (setConversationId (Some activeId) s1)
        | None => s1
        end
    | None => s1
    end
  else s1.

(** ** The component as a transition system *)

(** The operations of the workflow: the handlers and the continuations of
    their remote calls.  [render] is the state of the render a handler was
    started in, which its continuation still reads. *)
Inductive Operation :=
| Submit (turnId : jsstring)
| DirectResolved (render : Ui.State) (turnId : jsstring)
    (data : InteractResponse.t)
| DirectRejected (turnId message : jsstring)
| RewriteResolved (render : Ui.State) (data : InteractResponse.t)
| RewriteRejected (message : jsstring)
| Cancel
| Choose (turnId : jsstring) (version : PromptChoice)
| AnswerResolved (turnId : jsstring) (answer : option jsstring)
| AnswerRejected (turnId message : jsstring)
| RegenerateResolved (render : Ui.State) (turnId : jsstring)
    (data : InteractResponse.t).

Definition perform (op : Operation) (s : Ui.State) : Ui.State :=
  match op with
  | Submit turnId => fst (handleSubmit turnId s)
  | DirectResolved render turnId data =>
      handleSubmit_direct_resolved render turnId data s
  | DirectRejected turnId message =>
      handleSubmit_direct_rejected turnId message s
  | RewriteResolved render data => handleSubmit_resolved render data s
  | RewriteRejected message => handleSubmit_rejected message s
  | Cancel => closeCompareModal s
  | Choose turnId version => fst (choosePromptVersion turnId version s)
  | AnswerResolved turnId answer =>
      fst (choosePromptVersion_resolved turnId answer s)
  | AnswerRejected turnId message =>
      fst (choosePromptVersion_rejected turnId message s)
  | RegenerateResolved render turnId data =>
      handleRegenerate_resolved render turnId data s
  end.

(** Everything that changes the state: the workflow, the input fields, the
    save effect, conversation management, and a reload of the page. *)
Inductive Event :=
| Workflow (op : Operation)
| EditPrompt (text : jsstring)
| ToggleEnhancer
| SelectMode (m : Mode)
| EditDraft (text : jsstring)
| SaveTurns (now : N)
| NewConversation
| SwitchTo (targetConversationId : jsstring)
| AskDelete (targetConversationId : jsstring)
| ConfirmDelete
| CancelDelete
| Reload.

Definition emptyStorage : Storage.t :=
  {| Storage.conversations := None; Storage.activeConversation := None |}.

Definition reload (s : Ui.State) : Ui.State :=
  loadOnMount (persist s emptyStorage) Ui.initial.

Definition run (e : Event) (s : Ui.State) : Ui.State :=
  match e with
  | Workflow op => perform op s
  | EditPrompt text => setPrompt text s
  | ToggleEnhancer => setEnhancerEnabled (negb (Ui.enhancerEnabled s)) s
  | SelectMode m => setMode m s
  | EditDraft text => setDraftRewrite text s
  | SaveTurns now => saveTurnsEffect now s
  | NewConversation => startNewConversation s
  | SwitchTo target => switchConversation s target s
  | AskDelete target => deleteConversation target s
  | ConfirmDelete => handleConfirmDelete s
  | CancelDelete => handleCancelDelete s
  | Reload => reload s
  end.

Definition runAll (es : list Event) (s : Ui.State) : Ui.State :=
  fold_left (fun acc e => run e acc) es s.

(** Regenerate is for a turn whose variant is not chosen yet: when its
    response is applied to the chat feed, the turn there has no chosen
    variant. *)
Definition admissible (e : Event) (s : Ui.State) : Prop :=
  match e with
  | Workflow (RegenerateResolved render turnId _) =>
      isPending turnId render = false ->
      forall t, In t (Ui.turns s) -> id t = turnId ->
                chosenPromptVersion t = None
  | _ => True
  end.

Inductive reachable : Ui.State -> Prop :=
| reachable_initial : reachable Ui.initial
| reachable_run (e : Event) (s : Ui.State) :
    reachable s -> admissible e s -> reachable (run e s).

(** The places a turn can be: the chat feed, the pending cell, the store. *)
Definition holds (s : Ui.State) (t : Turn) : Prop :=
  In t (Ui.turns s)
  \/ Ui.pendingTurn s = Some t
  \/ exists k conv, In (k, conv) (Ui.conversations s)
                    /\ In t (Conversation.turns conv).

(** The edited prompt of a chosen turn: present when the variant is
    [edited], and present only for [edited] or [original]. *)
Definition editedConsistent (t : Turn) : Prop :=
  (chosenPromptVersion t = Some use_edited -> truthy_opt (edited_prompt t) = true)
  /\ (edited_prompt t <> None ->
      chosenPromptVersion t = Some use_edited
      \/ chosenPromptVersion t = Some use_original).

(** A pending turn has neither a chosen variant nor an edited prompt. *)
Definition unchosen (t : Turn) : Prop :=
  chosenPromptVersion t = None /\ edited_prompt t = None.

Definition editedInvariant (s : Ui.State) : Prop :=
  Forall editedConsistent (Ui.turns s)
  /\ (forall p, Ui.pendingTurn s = Some p -> unchosen p)
  /\ Forall (fun e => Forall editedConsistent (Conversation.turns (snd e)))
       (Ui.conversations s).

(** *** Stages *)







(** What a regenerate response does to a turn: the rewrite fields are
    replaced, the edited prompt is reset, every other field but the
    interaction id is kept, detected intent and topic included. *)
Definition regeneratedFrom (data : InteractResponse.t) (t t' : Turn) : Prop :=
  rewritten_prompt t' =
    match InteractResponse.rewritten_prompt data with
    | Some (c :: r) => Some (c :: r)
    | _ => None
    end
  /\ rewrite_strategy t' = InteractResponse.rewrite_strategy data
  /\ decisionRationale t' = Some (InteractResponse.decisionRationale data)
  /\ promptFeedback t'
     = option_map FeedbackText (InteractResponse.promptFeedback data)
  /\ edited_prompt t' = None
  /\ id t' = id t
  /\ conversationId t' = conversationId t
  /\ originalPrompt t' = originalPrompt t
  /\ mode t' = mode t
  /\ intent t' = intent t
  /\ topic t' = topic t
  /\ final_answer t' = final_answer t
  /\ reasoningStage t' = reasoningStage t
  /\ chosenPromptVersion t' = chosenPromptVersion t
  /\ showReasoning t' = showReasoning t.

(** No optional text field holds the empty string and the display flag is
    set: the turns on which the [x || null] defaults of rehydration do
    nothing. *)
Definition noEmptyOptionals (t : Turn) : Prop :=
  rewrite_strategy t <> Some []
  /\ edited_prompt t <> Some []
  /\ decisionRationale t <> Some []
  /\ promptFeedback t <> Some (FeedbackText [])
  /\ interaction_id t <> Some []
  /\ showReasoning t <> None.

(** ** The specification's wording, for comparison *)


(** Sections 3 and 8: the edited prompt is non-null iff the variant is
    [edited]. *)
Definition spec_editedIff (t : Turn) : Prop :=
  edited_prompt t <> None <-> chosenPromptVersion t = Some use_edited.

(** Section 4.1: the effective variant of [choosePromptVariant]. *)
Definition spec_effectiveVariant (requested : PromptChoice)
    (draftText : jsstring) (turn : Turn) : PromptChoice :=
  if PromptChoice_eqb requested use_rewritten
     && truthy draftText
     && negb (opt_str_eqb (Some draftText) (rewritten_prompt turn))
  then use_edited else requested.

(** Section 4.2: the most recently updated of the remaining conversations. *)
Definition spec_fallback (deleted : jsstring) (m : ConversationMap)
  : option jsstring :=
  match sortByUpdatedAt (objDelete deleted m) with
  | (k, _) :: _ => Some k
  | [] => None
  end.

(** Section 6: no turn with an in-flight stage is persisted. *)
Definition inFlight (t : Turn) : bool :=
  match reasoningStage t with
  | Some classifying | Some rewritten | Some answering => true
  | _ => false
  end.

(** Section 4.3: trimmed lines, leading bullet markers stripped. *)
Fixpoint spec_stripMarkers (line : jsstring) : jsstring :=
  match line with
  | c :: r => if isBulletMarker c then spec_stripMarkers r else trimStart line
  | [] => []
  end.

Definition spec_bullets (text : jsstring) : list jsstring :=
  let bullets :=
    filter truthy (map (fun line => spec_stripMarkers (trim line))
                       (split LF text)) in
  match bullets with
  | [] => if truthy (trim text) then [trim text] else []
  | _ => bullets
  end.

(** The first character of the line is a bullet marker. *)
Definition markerAtStart (line : jsstring) : bool :=
  match line with
  | c :: _ => isBulletMarker c
  | [] => false
  end.

(** The bullet marker of the line stands behind indentation. *)
Definition indentedMarker (line : jsstring) : bool :=
  negb (markerAtStart line) && markerAtStart (trimStart line).

(** The text of the line starts with two bullet-marker characters in a
    row. *)
Definition doubledMarker (line : jsstring) : bool :=
  match trimStart line with
  | c :: d :: _ => isBulletMarker c && isBulletMarker d
  | _ => false
  end.

(** ** Sample data *)

(** An upper-casing of the ASCII letters, to run the transform. *)
Definition asciiToUpperCase (s : jsstring) : jsstring :=
  map (fun c => if (97 <=? c) && (c <=? 122) then c - 32 else c) s.

Definition sampleRewrite : jsstring :=
  js "Explain reinforcement learning step by step, with one example.".

Definition sampleData : InteractResponse.t :=
  {| InteractResponse.interaction_id := js "i-1";
     InteractResponse.conversationId := js "c-1";
     InteractResponse.intent := Some (js "conceptual");
     InteractResponse.topic := Some (js "reinforcement learning");
     InteractResponse.rewritten_prompt := Some sampleRewrite;
     InteractResponse.rewrite_strategy := Some (js "learning_explanation");
     InteractResponse.decisionRationale :=
       js "The prompt asks for a concept. A structured rewrite helps.";
     InteractResponse.promptFeedback :=
       Some (js "- Added structure" ++ [LF] ++ js "- Asked for an example");
     InteractResponse.final_answer := None;
     InteractResponse.showReasoning := Some true |}.

(** A second response: another intent and topic, no rewrite. *)
Definition sampleDataNoRewrite : InteractResponse.t :=
  {| InteractResponse.interaction_id := js "i-2";
     InteractResponse.conversationId := js "c-1";
     InteractResponse.intent := Some (js "debugging");
     InteractResponse.topic := Some (js "policies");
     InteractResponse.rewritten_prompt := None;
     InteractResponse.rewrite_strategy := None;
     InteractResponse.decisionRationale := js "No rewrite needed.";
     InteractResponse.promptFeedback := None;
     InteractResponse.final_answer := None;
     InteractResponse.showReasoning := Some true |}.

Definition sampleId : jsstring := js "turn-1".

(** A prompt typed and submitted with the enhancer on. *)
Definition sampleClassifying : Ui.State :=
  runAll [EditPrompt (js "What is reinforcement learning?");
          Workflow (Submit sampleId)] Ui.initial.

(** The rewrite has arrived; the turn awaits the choice. *)
Definition sampleAwaitingChoice : Ui.State :=
  perform (RewriteResolved Ui.initial sampleData) sampleClassifying.

(** The same with a response that carries no rewrite. *)
Definition sampleAwaitingWithoutRewrite : Ui.State :=
  perform (RewriteResolved Ui.initial sampleDataNoRewrite) sampleClassifying.

(** The user has typed into the draft. *)
Definition sampleDraftEdited : Ui.State :=
  setDraftRewrite (js "Explain reinforcement learning to a child.")
    sampleAwaitingChoice.

(** The rewritten version is chosen and its answer awaited. *)
Definition sampleAnswering : Ui.State :=
  perform (Choose sampleId use_rewritten) sampleAwaitingChoice.

(** A turn answered without the enhancer. *)
Definition answeredTurn (turnId conversation question answer : jsstring)
  : Turn :=
  {| id := turnId; conversationId := Some conversation;
     originalPrompt := question; mode := None; intent := None; topic := None;
     rewritten_prompt := None; rewrite_strategy := None; edited_prompt := None;
     final_answer := Some answer;
     decisionRationale := Some (js "Enhancer disabled.");
     promptFeedback := None; reasoningStage := Some done;
     chosenPromptVersion := Some use_original;
     interaction_id := Some (js "i-0"); showReasoning := Some false |}.

Definition sampleConversation (key question : jsstring) (updated : N)
  : jsstring * Conversation.t :=
  (key,
   {| Conversation.turns := [answeredTurn (js "t-" ++ key) key question (js "42")];
      Conversation.title := question;
      Conversation.updatedAt := updated |}).

(** Three conversations created in the order a, b, c; a was visited again
    before c became active, so a is the most recently updated after c.
    The user has asked to delete the active conversation c. *)
Definition sampleThreeConversations : Ui.State :=
  setDeleteConfirmDialog
    {| DeleteDialog.isOpen := true;
       DeleteDialog.conversationId := Some (js "c") |}
    (setTurns [answeredTurn (js "t-c") (js "c") (js "third") (js "42")]
       (setConversationId (Some (js "c"))
          (setConversations
             [sampleConversation (js "a") (js "first") 30;
              sampleConversation (js "b") (js "second") 10;
              sampleConversation (js "c") (js "third") 40]
             Ui.initial))).

(** The response to a submission made with the enhancer off. *)
Definition sampleDirectData : InteractResponse.t :=
  {| InteractResponse.interaction_id := js "i-0";
     InteractResponse.conversationId := js "c-1";
     InteractResponse.intent := None;
     InteractResponse.topic := None;
     InteractResponse.rewritten_prompt := None;
     InteractResponse.rewrite_strategy := None;
     InteractResponse.decisionRationale := js "Enhancer disabled.";
     InteractResponse.promptFeedback := None;
     InteractResponse.final_answer := Some (js "Learning from reward.");
     InteractResponse.showReasoning := Some false |}.

(** With the enhancer off: a first question is answered and saved; a second
    one is submitted, and the save effect runs while its answer is awaited. *)
Definition sampleSecondQuestionInFlight : Ui.State :=
  runAll [ToggleEnhancer;
          EditPrompt (js "What is reinforcement learning?");
          Workflow (Submit (js "turn-1"));
          Workflow (DirectResolved Ui.initial (js "turn-1") sampleDirectData);
          SaveTurns 10;
          EditPrompt (js "And Q-learning?");
          Workflow (Submit (js "turn-2"));
          SaveTurns 20] Ui.initial.

(** A response whose intent is the word the save filter looks for. *)
Definition sampleDataLoadingIntent : InteractResponse.t :=
  {| InteractResponse.interaction_id := js "i-1";
     InteractResponse.conversationId := js "c-1";
     InteractResponse.intent := Some (js "loading");
     InteractResponse.topic := Some (js "web pages");
     InteractResponse.rewritten_prompt := None;
     InteractResponse.rewrite_strategy := None;
     InteractResponse.decisionRationale := js "The prompt is about loading.";
     InteractResponse.promptFeedback := None;
     InteractResponse.final_answer := None;
     InteractResponse.showReasoning := Some true |}.

(** Two questions asked with the enhancer on and answered; the first one was
    classified with intent [loading]. *)
Definition sampleTwoAnswered : Ui.State :=
  runAll [EditPrompt (js "Why is my page loading slowly?");
          Workflow (Submit (js "turn-1"));
          Workflow (RewriteResolved Ui.initial sampleDataLoadingIntent);
          Workflow (Choose (js "turn-1") use_original);
          Workflow (AnswerResolved (js "turn-1") (Some (js "Large images.")));
          EditPrompt (js "What is reinforcement learning?");
          Workflow (Submit (js "turn-2"));
          Workflow (RewriteResolved Ui.initial sampleData);
          Workflow (Choose (js "turn-2") use_rewritten);
          Workflow (AnswerResolved (js "turn-2") (Some (js "Learning from reward.")))]
    Ui.initial.

(** One question asked without the enhancer and answered. *)
Definition sampleOneAnswered : Ui.State :=
  runAll [ToggleEnhancer;
          EditPrompt (js "What is reinforcement learning?");
          Workflow (Submit (js "turn-1"));
          Workflow (DirectResolved Ui.initial (js "turn-1") sampleDirectData)]
    Ui.initial.

(** Feedback with a nested bullet, as a turn carries it. *)
Definition sampleNestedFeedback : jsstring :=
  js "- Added structure" ++ [LF] ++ js "  - with numbered steps".

Definition sampleNestedTurn : Turn :=
  {| id := sampleId; conversationId := Some (js "c-1");
     originalPrompt := js "What is reinforcement learning?";
     mode := Some learning; intent := Some (js "direct_answer");
     topic := Some (js "reinforcement learning");
     rewritten_prompt := Some sampleRewrite;
     rewrite_strategy := Some (js "learning_explanation");
     edited_prompt := None; final_answer := None;
     decisionRationale :=
       Some (js "The prompt asks for a concept. A structured rewrite helps.");
     promptFeedback := Some (FeedbackText sampleNestedFeedback);
     reasoningStage := Some rewritten; chosenPromptVersion := None;
     interaction_id := Some (js "i-1"); showReasoning := Some true |}.

(** The draft is edited, and then the original prompt is chosen. *)
Definition sampleOriginalAfterEdit : Ui.State :=
  runAll [EditPrompt (js "What is reinforcement learning?");
          Workflow (Submit sampleId);
          Workflow (RewriteResolved Ui.initial sampleData);
          EditDraft (js "Explain reinforcement learning to a child.");
          Workflow (Choose sampleId use_original)] Ui.initial.






(** The rewritten version is chosen and the turn saved while its answer is
    awaited; the user starts a new conversation, and then the answer call
    fails. *)
Definition sampleAnswerLost : Ui.State :=
  runAll [EditPrompt (js "What is reinforcement learning?");
          Workflow (Submit sampleId);
          Workflow (RewriteResolved Ui.initial sampleData);
          Workflow (Choose sampleId use_rewritten);
          SaveTurns 5;
          NewConversation;
          Workflow (AnswerRejected sampleId (js "Failed to fetch"))]
    Ui.initial.

(** What is seen of a turn in the feed or the store. *)
Definition stageAndAnswer (t : Turn)
  : jsstring * option ReasoningStage * option jsstring :=
  (id t, reasoningStage t, final_answer t).

(** ** Display *)

Definition ReasoningStage_eqb (a b : ReasoningStage) : bool :=
  match a, b with
  | classifying, classifying | rewritten, rewritten
  | answering, answering | done, done => true
  | _, _ => false
  end.

(** [turn.reasoningStage === st] *)
Definition stageIs (st : ReasoningStage) (turn : Turn) : bool :=
  match reasoningStage turn with
  | Some x => ReasoningStage_eqb x st
  | None => false
  end.

Definition isNull (A : Type) (o : option A) : bool :=
  match o with Some _ => false | None => true end.

(** [modalTurn]: the turn the modal is about. *)
Definition modalTurn (s : Ui.State) : option Turn :=
  if truthy_opt (Ui.modalTurnId s)
  then findTurn (or_empty (Ui.modalTurnId s)) s else None.

(** The three modal blocks of the render. *)
Definition showsEnhancingModal (s : Ui.State) : bool :=
  match modalTurn s with
  | Some t => stageIs classifying t || isNull (intent t)
  | None => false
  end.

Definition showsReasoningModal (s : Ui.State) : bool :=
  match modalTurn s with
  | Some t =>
      negb (stageIs classifying t) && negb (isNull (intent t))
      && negb (stageIs answering t)
  | None => false
  end.

Definition showsAnsweringModal (s : Ui.State) : bool :=
  match modalTurn s with
  | Some t => stageIs answering t
  | None => false
  end.

(** [modalMode === 'preChoice']: no variant chosen yet. *)
Definition isPreChoice (turn : Turn) : bool := isNull (chosenPromptVersion turn).

(** The two buttons of the reasoning modal are rendered: the modal is, in
    pre-choice mode, which is when it is given the two callbacks. *)
Definition choiceOffered (s : Ui.State) : bool :=
  showsReasoningModal s
  && match modalTurn s with Some t => isPreChoice t | None => false end.

(** [disabled] of the button [Use This Version]. *)
Definition useThisVersionDisabled (s : Ui.State) : bool :=
  negb (truthy (trim (Ui.draftRewrite s))).


(** The prompt in the user bubble of a turn; [None] renders nothing. *)
Definition bubblePrompt (turn : Turn) : option jsstring :=
  match chosenPromptVersion turn with
  | Some use_edited =>
      if truthy_opt (edited_prompt turn) then edited_prompt turn
      else rewritten_prompt turn
  | Some use_rewritten => rewritten_prompt turn
  | _ => Some (originalPrompt turn)
  end.

(** [turn.edited_prompt ?? turn.rewritten_prompt ?? ''] *)
Definition draftFor (turn : Turn) : jsstring :=
  match edited_prompt turn with
  | Some e => e
  | None => or_empty (rewritten_prompt turn)
  end.

(** The effect on [[modalTurnId, turns, pendingTurn]]. *)
Definition initDraftEffect (s : Ui.State) : Ui.State :=
  match modalTurn s with
  | Some turn => setDraftRewrite (draftFor turn) s
  | None => s
  end.

Definition openCompareModal (turnId : jsstring) (s : Ui.State) : Ui.State :=
  let s1 := setModalTurnId (Some turnId) s in
  match find (fun t => str_eqb (id t) turnId) (Ui.turns s) with
  | Some turn => setDraftRewrite (draftFor turn) s1
  | None => s1
  end.

(** [formatIntent] of the reasoning modal and of [AnswerMessage]. *)
Definition formatIntentLabel (toUpperCase : jsstring -> jsstring)
    (intent : jsstring) : jsstring :=
  if negb (truthy intent) then [] else formatWords toUpperCase intent.

(** [truncateTopic] of [AnswerMessage]; [substring] clamps a negative end
    to 0, as the subtraction on [nat] does. *)
Definition truncateTopic (topic : jsstring) (maxLength : nat) : jsstring :=
  if negb (truthy topic) then []
  else if Nat.leb (List.length topic) maxLength then topic
  else firstn (maxLength - 3) topic ++ js "...".

(** The topic pill: the default [maxLength]. *)
Definition topicPill (topic : jsstring) : jsstring := truncateTopic topic 30.

(** A turn of the chat feed or of the store is past the choice. *)
Definition pastChoice (t : Turn) : Prop :=
  reasoningStage t = Some answering \/ reasoningStage t = Some done.

Definition feedInvariant (s : Ui.State) : Prop :=
  Forall pastChoice (Ui.turns s)
  /\ Forall (fun e => Forall pastChoice (Conversation.turns (snd e)))
       (Ui.conversations s).

(** The active pointer is null or names a stored conversation. *)
Definition activeStored (s : Ui.State) : Prop :=
  match Ui.conversationId s with
  | None => True
  | Some c => exists conv, objGet c (Ui.conversations s) = Some conv
  end.

(** Newer conversations first. *)
Definition newerFirst (a b : jsstring * Conversation.t) : Prop :=
  Conversation.updatedAt (snd b) <= Conversation.updatedAt (snd a).

Definition isBlank (s : jsstring) : Prop :=
  Forall (fun c => isWhiteSpace c = true) s.


(** A question typed with the enhancer on. *)
Definition sampleReady : Ui.State :=
  run (EditPrompt (js "What is reinforcement learning?")) Ui.initial.

(** The modal is open on the sample turn, whose classification failed. *)
Definition samplePendingTurn : Turn :=
  {| id := sampleId; conversationId := Some (js "pending");
     originalPrompt := js "What is reinforcement learning?";
     mode := Some learning; intent := None; topic := None;
     rewritten_prompt := None; rewrite_strategy := None;
     edited_prompt := None; final_answer := None;
     decisionRationale := None; promptFeedback := None;
     reasoningStage := Some classifying;
     chosenPromptVersion := None; interaction_id := None;
     showReasoning := Some true |}.

(** * Properties *)

(** ** Strings and lookups *)

Lemma str_eqb_eq (a b : jsstring) : str_eqb a b = true <-> a = b.
Proof.
  unfold str_eqb. destruct (jsstring_dec a b); split; congruence.
Qed.

Lemma str_eqb_refl (a : jsstring) : str_eqb a a = true.
Proof. apply str_eqb_eq. reflexivity. Qed.

Lemma str_eqb_neq (a b : jsstring) : str_eqb a b = false <-> a <> b.
Proof.
  unfold str_eqb. destruct (jsstring_dec a b); split; congruence.
Qed.

Lemma truthy_nonempty (s : jsstring) : truthy s = true <-> s <> [].
Proof. destruct s; simpl; split; congruence. Qed.

Lemma truthy_opt_Some (o : option jsstring) :
  truthy_opt o = true <-> exists r, o = Some r /\ r <> [].
Proof.
  destruct o as [r|]; simpl.
  - rewrite truthy_nonempty. split.
    + intros H. exists r. auto.
    + intros (r' & E & H). congruence.
  - split; [discriminate | intros (r' & E & _); discriminate].
Qed.

Lemma or_null_truthy (o : option jsstring) :
  truthy_opt o = true -> or_null o = o.
Proof. unfold or_null. intros ->. reflexivity. Qed.

Lemma find_id_some (turnId : jsstring) (ts : list Turn) (t : Turn) :
  find (fun x => str_eqb (id x) turnId) ts = Some t ->
  In t ts /\ id t = turnId.
Proof.
  intros H. apply find_some in H. destruct H as [Hin Heq].
  apply str_eqb_eq in Heq. auto.
Qed.

Lemma in_mapTurn (turnId : jsstring) (f : Turn -> Turn) (ts : list Turn)
    (t : Turn) :
  In t ts -> id t = turnId -> In (f t) (mapTurn turnId f ts).
Proof.
  intros Hin Hid. unfold mapTurn.
  apply in_map with (f := fun x => if str_eqb (id x) turnId then f x else x)
    in Hin.
  rewrite Hid, str_eqb_refl in Hin. exact Hin.
Qed.

Lemma findTurn_id (turnId : jsstring) (s : Ui.State) (t : Turn) :
  findTurn turnId s = Some t -> id t = turnId.
Proof.
  unfold findTurn. destruct (Ui.pendingTurn s) as [p|].
  - destruct (str_eqb (id p) turnId) eqn:E.
    + intros [= <-]. apply str_eqb_eq. exact E.
    + intros H. apply find_id_some in H. tauto.
  - intros H. apply find_id_some in H. tauto.
Qed.

(** ** Choosing a prompt version *)

(** What the draft being edited means in [choosePromptVersion]. *)
Lemma isEdited_spec (turn : Turn) (d : jsstring) :
  isEdited turn d = true <->
  exists r, rewritten_prompt turn = Some r /\ r <> [] /\ d <> r /\ d <> [].
Proof.
  unfold isEdited. rewrite !andb_true_iff, !negb_true_iff.
  rewrite truthy_opt_Some. split.
  - intros [[(r & E & Hr) Hd] Hne]. exists r. rewrite E in Hd. simpl in Hd.
    apply str_eqb_neq in Hd, Hne. auto.
  - intros (r & E & Hr & Hd & Hne). rewrite E. simpl.
    repeat split; try (apply str_eqb_neq; assumption).
    exists r. auto.
Qed.

(** The turn put on display and the call issued by [choosePromptVersion]. *)
Lemma choosePromptVersion_found (turnId : jsstring) (version : PromptChoice)
    (s : Ui.State) (turn : Turn) :
  findTurn turnId s = Some turn ->
  let d := trim (Ui.draftRewrite s) in
  let actual := actualVersion version (isEdited turn d) in
  let finalEdited := finalEditedPrompt actual (isEdited turn d) d in
  exists s',
    choosePromptVersion turnId version s =
      (s', [PostAnswer
              {| AnswerRequest.prompt := promptForAnswer turn actual finalEdited;
                 AnswerRequest.mode := mode turn;
                 AnswerRequest.intent := intent turn;
                 AnswerRequest.topic := topic turn;
                 AnswerRequest.interaction_id := interaction_id turn;
                 AnswerRequest.conversationId := conversationId turn;
                 AnswerRequest.chosen_version := actual;
                 AnswerRequest.original_prompt := originalPrompt turn;
                 AnswerRequest.rewritten_prompt := rewritten_prompt turn |}])
    /\ In (withChoice actual finalEdited turn) (Ui.turns s').
Proof.
  intros Hfind d actual finalEdited.
  unfold choosePromptVersion. rewrite Hfind.
  fold d. fold actual. fold finalEdited.
  eexists. split; [reflexivity|].
  unfold findTurn in Hfind.
  destruct (Ui.pendingTurn s) as [p|].
  - destruct (str_eqb (id p) turnId) eqn:E.
    + injection Hfind as <-. simpl. apply in_or_app. right. left. reflexivity.
    + apply find_id_some in Hfind. destruct Hfind as [Hin Hid].
      simpl. apply in_mapTurn; assumption.
  - apply find_id_some in Hfind. destruct Hfind as [Hin Hid].
    simpl. apply in_mapTurn; assumption.
Qed.

(** The effective variant as a case table. *)
Lemma actualVersion_cases (version : PromptChoice) (e : bool) :
  actualVersion version e =
  match version with
  | use_original => use_original
  | _ => if e then use_edited else use_rewritten
  end.
Proof. destruct version, e; reflexivity. Qed.

Lemma finalEditedPrompt_cases (version : PromptChoice) (e : bool)
    (d : jsstring) :
  finalEditedPrompt (actualVersion version e) e d = if e then Some d else None.
Proof. destruct version, e; reflexivity. Qed.

(** C10.  A turn awaiting the choice whose rewritten prompt is null: choosing
    [rewritten] is never reclassified to [edited], whatever the draft is.
    The turn is put in the chat feed with variant [rewritten] and a null
    edited prompt, and the answer call carries the original prompt. *)
Theorem choose_rewritten_without_rewrite :
  forall (s : Ui.State) (turnId : jsstring) (turn : Turn),
    findTurn turnId s = Some turn ->
    reasoningStage turn = Some rewritten ->
    rewritten_prompt turn = None ->
    exists s' body t',
      choosePromptVersion turnId use_rewritten s = (s', [PostAnswer body])
      /\ AnswerRequest.chosen_version body = use_rewritten
      /\ AnswerRequest.prompt body = originalPrompt turn
      /\ In t' (Ui.turns s') /\ id t' = turnId
      /\ chosenPromptVersion t' = Some use_rewritten
      /\ edited_prompt t' = None.
Proof.
  intros s turnId turn Hfind _ Hnull.
  destruct (choosePromptVersion_found turnId use_rewritten s Hfind)
    as (s' & Hrun & Hin).
  assert (E : isEdited turn (trim (Ui.draftRewrite s)) = false).
  { unfold isEdited. rewrite Hnull. reflexivity. }
  rewrite E in Hrun, Hin. simpl in Hrun, Hin.
  eexists s', _, _. split; [exact Hrun|]. simpl.
  repeat split.
  - unfold promptForAnswer. rewrite Hnull. reflexivity.
  - exact Hin.
  - simpl. eapply findTurn_id; eassumption.
  - reflexivity.
  - reflexivity.
Qed.

Lemma choose_rewritten_without_rewrite_witness :
  exists s' body t',
    choosePromptVersion sampleId use_rewritten
      (setDraftRewrite (js "my own words") sampleAwaitingWithoutRewrite)
      = (s', [PostAnswer body])
    /\ AnswerRequest.chosen_version body = use_rewritten
    /\ AnswerRequest.prompt body = js "What is reinforcement learning?"
    /\ In t' (Ui.turns s') /\ id t' = sampleId
    /\ chosenPromptVersion t' = Some use_rewritten
    /\ edited_prompt t' = None.
Proof.
  apply (@choose_rewritten_without_rewrite
           (setDraftRewrite (js "my own words") sampleAwaitingWithoutRewrite)
           sampleId
           (withRewrite sampleDataNoRewrite
              {| id := sampleId; conversationId := Some (js "pending");
                 originalPrompt := js "What is reinforcement learning?";
                 mode := Some learning; intent := None; topic := None;
                 rewritten_prompt := None; rewrite_strategy := None;
                 edited_prompt := None; final_answer := None;
                 decisionRationale := None; promptFeedback := None;
                 reasoningStage := Some classifying;
                 chosenPromptVersion := None; interaction_id := None;
                 showReasoning := Some true |}));
    reflexivity.
Defined.

(** C4, as stated, fails twice.  With no rewritten prompt a non-empty draft
    differs from the stored (null) rewrite, yet the variant stays
    [rewritten]; and a draft that differs from the rewrite only by
    surrounding white space is not an edit, because the code compares the
    trimmed draft. *)
Lemma effective_variant_counterexample :
  (exists turn,
     findTurn sampleId sampleAwaitingWithoutRewrite = Some turn
     /\ reasoningStage turn = Some rewritten
     /\ spec_effectiveVariant use_rewritten (js "my own words") turn
        = use_edited
     /\ exists s' body,
          choosePromptVersion sampleId use_rewritten
            (setDraftRewrite (js "my own words") sampleAwaitingWithoutRewrite)
          = (s', [PostAnswer body])
          /\ AnswerRequest.chosen_version body = use_rewritten)
  /\
  (exists turn,
     findTurn sampleId sampleAwaitingChoice = Some turn
     /\ reasoningStage turn = Some rewritten
     /\ spec_effectiveVariant use_rewritten (sampleRewrite ++ js " ") turn
        = use_edited
     /\ exists s' body,
          choosePromptVersion sampleId use_rewritten
            (setDraftRewrite (sampleRewrite ++ js " ") sampleAwaitingChoice)
          = (s', [PostAnswer body])
          /\ AnswerRequest.chosen_version body = use_rewritten).
Proof.
  split.
  - eexists. split; [reflexivity|]. split; [reflexivity|].
    split; [reflexivity|]. eexists _, _. split; reflexivity.
  - eexists. split; [reflexivity|]. split; [reflexivity|].
    split; [vm_compute; reflexivity|]. eexists _, _.
    split; vm_compute; reflexivity.
Qed.

(** C4, amended.  For a turn awaiting the choice, with [d] the trimmed
    draft: the draft counts as edited when the rewritten prompt is present
    and non-empty and [d] is non-empty and differs from it.  A request for
    [original] is kept; a request for [rewritten] or [edited] becomes
    [edited] when the draft is edited and [rewritten] otherwise.  The stored
    edited prompt is [d] when the draft is edited and null otherwise.  The
    answer call carries [d] for [edited], the rewritten prompt for
    [rewritten] when there is one, and the original prompt in every other
    case. *)
Theorem choosePromptVersion_effective_variant :
  forall (s : Ui.State) (turnId : jsstring) (version : PromptChoice)
         (turn : Turn),
    findTurn turnId s = Some turn ->
    reasoningStage turn = Some rewritten ->
    let d := trim (Ui.draftRewrite s) in
    let e := isEdited turn d in
    let effective :=
      match version with
      | use_original => use_original
      | _ => if e then use_edited else use_rewritten
      end in
    (e = true <->
     exists r, rewritten_prompt turn = Some r /\ r <> [] /\ d <> r /\ d <> [])
    /\ exists s' body t',
         choosePromptVersion turnId version s = (s', [PostAnswer body])
         /\ AnswerRequest.chosen_version body = effective
         /\ AnswerRequest.prompt body =
            match effective with
            | use_edited => d
            | use_rewritten =>
                match rewritten_prompt turn with
                | Some (c :: r) => c :: r
                | _ => originalPrompt turn
                end
            | use_original => originalPrompt turn
            end
         /\ In t' (Ui.turns s') /\ id t' = turnId
         /\ chosenPromptVersion t' = Some effective
         /\ edited_prompt t' = (if e then Some d else None)
         /\ reasoningStage t' = Some answering.
Proof.
  intros s turnId version turn Hfind _ d e effective.
  split; [apply isEdited_spec|].
  destruct (choosePromptVersion_found turnId version s Hfind)
    as (s' & Hrun & Hin).
  fold d in Hrun, Hin. fold e in Hrun, Hin.
  rewrite finalEditedPrompt_cases in Hrun, Hin.
  rewrite actualVersion_cases in Hrun, Hin. fold effective in Hrun, Hin.
  eexists s', _, _. split; [exact Hrun|]. simpl.
  split; [reflexivity|]. split.
  - unfold promptForAnswer.
    assert (He : e = true -> d <> []).
    { intros H. apply isEdited_spec in H. destruct H as (r & _ & _ & _ & H).
      exact H. }
    subst effective. destruct version, e; simpl;
      try reflexivity;
      try (destruct (rewritten_prompt turn) as [[|c r]|]; reflexivity).
    all: destruct d as [|c r]; [exfalso; apply He; reflexivity | reflexivity].
  - split; [exact Hin|]. simpl.
    split; [eapply findTurn_id; eassumption|]. auto.
Qed.

Lemma choosePromptVersion_effective_variant_witness :
  exists s' body t',
    choosePromptVersion sampleId use_rewritten sampleDraftEdited
      = (s', [PostAnswer body])
    /\ AnswerRequest.chosen_version body = use_edited
    /\ AnswerRequest.prompt body
       = js "Explain reinforcement learning to a child."
    /\ In t' (Ui.turns s') /\ id t' = sampleId
    /\ chosenPromptVersion t' = Some use_edited
    /\ edited_prompt t' = Some (js "Explain reinforcement learning to a child.")
    /\ reasoningStage t' = Some answering.
Proof.
  exact (proj2 (@choosePromptVersion_effective_variant
                  sampleDraftEdited sampleId use_rewritten
                  (withRewrite sampleData
                     {| id := sampleId; conversationId := Some (js "pending");
                        originalPrompt := js "What is reinforcement learning?";
                        mode := Some learning; intent := None; topic := None;
                        rewritten_prompt := None; rewrite_strategy := None;
                        edited_prompt := None; final_answer := None;
                        decisionRationale := None; promptFeedback := None;
                        reasoningStage := Some classifying;
                        chosenPromptVersion := None; interaction_id := None;
                        showReasoning := Some true |})
                  eq_refl eq_refl)).
Defined.

(** ** Failure of the answer call *)

Lemma nth_error_mapTurn (turnId : jsstring) (f : Turn -> Turn)
    (ts : list Turn) (n : nat) :
  nth_error (mapTurn turnId f ts) n =
  option_map (fun t => if str_eqb (id t) turnId then f t else t)
             (nth_error ts n).
Proof. unfold mapTurn. apply nth_error_map. Qed.

Lemma mapTurn_absent (turnId : jsstring) (f : Turn -> Turn) (ts : list Turn) :
  find (fun t => str_eqb (id t) turnId) ts = None -> mapTurn turnId f ts = ts.
Proof.
  induction ts as [|t ts IH]; simpl; [reflexivity|].
  destruct (str_eqb (id t) turnId); [discriminate|].
  intros H. rewrite (IH H). reflexivity.
Qed.

Lemma reachable_runAll (es : list Event) (s : Ui.State) :
  reachable s ->
  Forall (fun e => forall s', admissible e s') es ->
  reachable (runAll es s).
Proof.
  intros Hs Hes. revert s Hs.
  induction Hes as [|e es He _ IH]; intros s Hs; [exact Hs|].
  simpl. apply IH. apply reachable_run; [exact Hs | apply He].
Qed.

Lemma setTurns_same (s : Ui.State) : setTurns (Ui.turns s) s = s.
Proof. destruct s. reflexivity. Qed.

Lemma sampleAnswerLost_reachable : reachable sampleAnswerLost.
Proof.
  apply reachable_runAll; [constructor|].
  repeat (constructor; [intros s'; exact I|]). constructor.
Qed.

(** C7, as stated, fails for a turn that has left the chat feed when its
    answer call fails.  The turn was saved while the answer was awaited and
    the user started a new conversation: the failure finds no turn to
    update, the stored copy stays in [answering] without an answer, and
    that is what a switch back to the conversation displays. *)
Lemma answer_failure_elsewhere_counterexample :
  reachable sampleAnswerLost
  /\ Ui.turns sampleAnswerLost = []
  /\ Ui.pendingTurn sampleAnswerLost = None
  /\ option_map (fun conv => map stageAndAnswer (Conversation.turns conv))
       (objGet (js "c-1") (Ui.conversations sampleAnswerLost))
     = Some [(sampleId, Some answering, None)]
  /\ map stageAndAnswer
       (Ui.turns (run (SwitchTo (js "c-1")) sampleAnswerLost))
     = [(sampleId, Some answering, None)].
Proof.
  split; [exact sampleAnswerLost_reachable|].
  repeat split; vm_compute; reflexivity.
Qed.

(** C7, amended.  The failure of an answer call updates the chat feed, and
    nothing else.  A turn that is in the feed then (at its place there)
    ends in stage [done] with the sentinel [Error: message] as its answer;
    its chosen variant, edited and rewritten prompt, strategy, rationale,
    feedback, intent and topic are what they were, and every other turn is
    untouched.  The pending turn and the stored conversations are left as
    they are, so when the turn is not in the feed any more the state does
    not change at all.  The handler issues no further call. *)
Theorem answer_failure_is_terminal :
  forall (s : Ui.State) (turnId message : jsstring),
  exists s',
    choosePromptVersion_rejected turnId message s = (s', [])
    /\ (forall n t,
          nth_error (Ui.turns s) n = Some t -> id t = turnId ->
          exists t',
            nth_error (Ui.turns s') n = Some t'
            /\ reasoningStage t' = Some done
            /\ final_answer t' = Some (js "Error: " ++ message)
            /\ id t' = id t
            /\ chosenPromptVersion t' = chosenPromptVersion t
            /\ edited_prompt t' = edited_prompt t
            /\ rewritten_prompt t' = rewritten_prompt t
            /\ rewrite_strategy t' = rewrite_strategy t
            /\ decisionRationale t' = decisionRationale t
            /\ promptFeedback t' = promptFeedback t
            /\ intent t' = intent t
            /\ topic t' = topic t
            /\ originalPrompt t' = originalPrompt t)
    /\ (forall m u, nth_error (Ui.turns s) m = Some u -> id u <> turnId ->
                    nth_error (Ui.turns s') m = Some u)
    /\ Ui.pendingTurn s' = Ui.pendingTurn s
    /\ Ui.conversations s' = Ui.conversations s
    /\ Ui.conversationId s' = Ui.conversationId s
    /\ (find (fun t => str_eqb (id t) turnId) (Ui.turns s) = None -> s' = s).
Proof.
  intros s turnId message.
  eexists. split; [reflexivity|].
  split; [|split; [|split; [|split; [|split]]]]; try reflexivity.
  - intros n t Hn Hid. eexists. split.
    + simpl. rewrite nth_error_mapTurn, Hn. simpl.
      rewrite Hid, str_eqb_refl. reflexivity.
    + simpl. repeat split.
  - intros m u Hm Hne. simpl. rewrite nth_error_mapTurn, Hm. simpl.
    apply str_eqb_neq in Hne. rewrite Hne. reflexivity.
  - intros Hnone. rewrite (@mapTurn_absent turnId (withError message) _ Hnone).
    apply setTurns_same.
Qed.

Lemma answer_failure_is_terminal_witness :
  exists s' t',
    choosePromptVersion_rejected sampleId (js "Failed to fetch") sampleAnswering
      = (s', [])
    /\ nth_error (Ui.turns s') 0 = Some t'
    /\ reasoningStage t' = Some done
    /\ final_answer t' = Some (js "Error: Failed to fetch")
    /\ chosenPromptVersion t' = Some use_rewritten
    /\ rewritten_prompt t' = Some sampleRewrite.
Proof.
  destruct (@answer_failure_is_terminal sampleAnswering sampleId
              (js "Failed to fetch"))
    as (s' & Hs' & Hin & _).
  destruct (Hin 0%nat
              (withChoice use_rewritten None
                 (withRewrite sampleData
                    {| id := sampleId; conversationId := Some (js "pending");
                       originalPrompt := js "What is reinforcement learning?";
                       mode := Some learning; intent := None; topic := None;
                       rewritten_prompt := None; rewrite_strategy := None;
                       edited_prompt := None; final_answer := None;
                       decisionRationale := None; promptFeedback := None;
                       reasoningStage := Some classifying;
                       chosenPromptVersion := None; interaction_id := None;
                       showReasoning := Some true |}))
              eq_refl eq_refl)
    as (t' & H2 & H3 & H4 & _ & H6 & _ & H8 & _).
  exists s', t'. repeat split; assumption.
Defined.

(** ** Regenerate *)

Lemma or_null_cases (o : option jsstring) :
  or_null o = match o with Some (c :: r) => Some (c :: r) | _ => None end.
Proof. destruct o as [[|c r]|]; reflexivity. Qed.

Lemma withRegenerated_frame (data : InteractResponse.t) (t : Turn) :
  regeneratedFrom data t (withRegenerated data t)
  /\ interaction_id (withRegenerated data t) = interaction_id t.
Proof.
  unfold regeneratedFrom. simpl. rewrite or_null_cases. repeat split.
Qed.

Lemma withRegeneratedPending_frame (data : InteractResponse.t) (t : Turn) :
  regeneratedFrom data t (withRegeneratedPending data t)
  /\ interaction_id (withRegeneratedPending data t)
     = Some (InteractResponse.interaction_id data).
Proof.
  unfold regeneratedFrom. simpl. rewrite or_null_cases. repeat split.
Qed.

(** C6, as stated, fails: the intent and topic of the new response do not
    win.  A pending turn classified [conceptual] / [reinforcement learning]
    keeps both when the regenerate response says [debugging] / [policies]. *)
Lemma regenerate_keeps_intent_counterexample :
  exists p p',
    Ui.pendingTurn sampleAwaitingChoice = Some p
    /\ reasoningStage p = Some rewritten /\ mode p = Some learning
    /\ Ui.pendingTurn
         (handleRegenerate_resolved sampleAwaitingChoice sampleId
            sampleDataNoRewrite sampleAwaitingChoice) = Some p'
    /\ intent p' = Some (js "conceptual")
    /\ InteractResponse.intent sampleDataNoRewrite = Some (js "debugging")
    /\ intent p' <> InteractResponse.intent sampleDataNoRewrite
    /\ topic p' <> InteractResponse.topic sampleDataNoRewrite.
Proof.
  eexists _, _. split; [reflexivity|]. split; [reflexivity|].
  split; [reflexivity|]. split; [reflexivity|].
  split; [reflexivity|]. split; [reflexivity|].
  split; vm_compute; discriminate.
Qed.

(** C6, amended.  For a turn in stage [rewritten] with a mode,
    [handleRegenerate] re-issues the classify-and-rewrite call with the same
    original prompt, mode and conversation.  Its response replaces the
    rewritten prompt (an empty one becomes null), the strategy, the
    rationale and the feedback and resets the edited prompt to null; the
    turn keeps its identity, original prompt, mode, stage, chosen variant,
    final answer and its previously detected intent and topic, whatever the
    response says.  A pending turn also takes the new interaction id; a turn
    of the chat feed keeps its own. *)
Theorem regenerate_replaces_rewrite_fields :
  forall (render : Ui.State) (turnId : jsstring) (turn : Turn) (m : Mode),
    findTurn turnId render = Some turn ->
    reasoningStage turn = Some rewritten ->
    mode turn = Some m ->
    handleRegenerate turnId render =
      (render,
       [PostInteract
          {| InteractRequest.prompt := originalPrompt turn;
             InteractRequest.enhancerEnabled := true;
             InteractRequest.mode := Some m;
             InteractRequest.conversationId := conversationId turn |}])
    /\ forall (data : InteractResponse.t) (s : Ui.State),
         let s' := handleRegenerate_resolved render turnId data s in
         (isPending turnId render = true ->
          Ui.turns s' = Ui.turns s
          /\ forall p, Ui.pendingTurn s = Some p ->
               exists p', Ui.pendingTurn s' = Some p'
                 /\ regeneratedFrom data p p'
                 /\ interaction_id p'
                    = Some (InteractResponse.interaction_id data))
         /\ (isPending turnId render = false ->
             Ui.pendingTurn s' = Ui.pendingTurn s
             /\ (forall n t, nth_error (Ui.turns s) n = Some t ->
                   id t = turnId ->
                   exists t', nth_error (Ui.turns s') n = Some t'
                     /\ regeneratedFrom data t t'
                     /\ interaction_id t' = interaction_id t)
             /\ (forall n t, nth_error (Ui.turns s) n = Some t ->
                   id t <> turnId -> nth_error (Ui.turns s') n = Some t)).
Proof.
  intros render turnId turn m Hfind _ Hmode. split.
  { unfold handleRegenerate. rewrite Hfind, Hmode. reflexivity. }
  intros data s s'. subst s'. unfold handleRegenerate_resolved. split.
  - intros ->. simpl. split; [reflexivity|].
    intros p ->. simpl. eexists. split; [reflexivity|].
    apply withRegeneratedPending_frame.
  - intros ->. simpl. split; [reflexivity|]. split.
    + intros n t Hn Hid. rewrite nth_error_mapTurn, Hn. simpl.
      rewrite Hid, str_eqb_refl. eexists. split; [reflexivity|].
      apply withRegenerated_frame.
    + intros n t Hn Hne. rewrite nth_error_mapTurn, Hn. simpl.
      apply str_eqb_neq in Hne. rewrite Hne. reflexivity.
Qed.

Lemma regenerate_replaces_rewrite_fields_witness :
  exists p',
    Ui.pendingTurn
      (handleRegenerate_resolved sampleAwaitingChoice sampleId
         sampleDataNoRewrite sampleAwaitingChoice) = Some p'
    /\ rewritten_prompt p' = None
    /\ intent p' = Some (js "conceptual")
    /\ originalPrompt p' = js "What is reinforcement learning?".
Proof.
  pose proof (@regenerate_replaces_rewrite_fields sampleAwaitingChoice sampleId
                (withRewrite sampleData
                   {| id := sampleId; conversationId := Some (js "pending");
                      originalPrompt := js "What is reinforcement learning?";
                      mode := Some learning; intent := None; topic := None;
                      rewritten_prompt := None; rewrite_strategy := None;
                      edited_prompt := None; final_answer := None;
                      decisionRationale := None; promptFeedback := None;
                      reasoningStage := Some classifying;
                      chosenPromptVersion := None; interaction_id := None;
                      showReasoning := Some true |})
                learning eq_refl eq_refl eq_refl) as [_ H].
  destruct (H sampleDataNoRewrite sampleAwaitingChoice) as [Hp _].
  destruct (Hp eq_refl) as [_ Hq].
  destruct (Hq _ eq_refl) as (p' & E & F & _).
  exists p'. split; [exact E|].
  destruct F as (F1 & _ & _ & _ & _ & _ & _ & F8 & _ & F10 & _).
  repeat split; assumption.
Defined.

(** ** Deleting the active conversation *)

Lemma objGet_objDelete_same (k : jsstring) (m : ConversationMap) :
  objGet k (objDelete k m) = None.
Proof.
  induction m as [|[k' v] m IH]; simpl; [reflexivity|].
  destruct (str_eqb k' k) eqn:E; simpl; [exact IH|].
  rewrite E. exact IH.
Qed.

Lemma objGet_objDelete_other (k t : jsstring) (m : ConversationMap) :
  k <> t -> objGet k (objDelete t m) = objGet k m.
Proof.
  intros Hne. induction m as [|[k' v] m IH]; simpl; [reflexivity|].
  destruct (str_eqb k' t) eqn:E; simpl.
  - apply str_eqb_eq in E. subst k'.
    assert (F : str_eqb t k = false) by (apply str_eqb_neq; congruence).
    rewrite F. exact IH.
  - destruct (str_eqb k' k); [reflexivity | exact IH].
Qed.

Lemma objGet_of_key (k : jsstring) (m : ConversationMap) :
  In k (objKeys m) -> exists v, objGet k m = Some v.
Proof.
  induction m as [|[k' v] m IH]; simpl; [tauto|].
  intros [E | Hin].
  - subst k'. rewrite str_eqb_refl. eauto.
  - destruct (str_eqb k' k); eauto.
Qed.

Lemma last_in (A : Type) (l : list A) (d : A) : l <> [] -> In (last l d) l.
Proof.
  induction l as [|a l IH]; [congruence|]. intros _.
  destruct l as [|b l]; [left; reflexivity|].
  right. apply IH. discriminate.
Qed.

(** C5, as stated, fails: the fallback is the last remaining key of the
    store, not the most recently updated conversation.  With conversations
    a (updated at 30), b (10) and c (40, active), deleting c activates b,
    while a is the most recently updated of the two that remain. *)
Lemma delete_fallback_counterexample :
  Ui.conversationId sampleThreeConversations = Some (js "c")
  /\ spec_fallback (js "c") (Ui.conversations sampleThreeConversations)
     = Some (js "a")
  /\ Ui.conversationId (handleConfirmDelete sampleThreeConversations)
     = Some (js "b").
Proof. repeat split. Qed.

(** C5, amended.  When the active conversation is deleted it leaves the
    store.  If other conversations remain, the one whose key comes last in
    the store's key order becomes active and its stored turns are displayed;
    if none remains, the active pointer is null and the turn list empty. *)
Theorem delete_active_falls_back_to_last_key :
  forall (s : Ui.State) (target : jsstring),
    DeleteDialog.conversationId (Ui.deleteConfirmDialog s) = Some target ->
    target <> [] ->
    Ui.conversationId s = Some target ->
    let s' := handleConfirmDelete s in
    let remainingIds :=
      filter (fun k => negb (str_eqb k target)) (objKeys (Ui.conversations s)) in
    Ui.conversations s' = objDelete target (Ui.conversations s)
    /\ objGet target (Ui.conversations s') = None
    /\ match remainingIds with
       | [] => Ui.conversationId s' = None /\ Ui.turns s' = []
       | _ :: _ =>
           exists conv,
             Ui.conversationId s' = Some (last remainingIds [])
             /\ objGet (last remainingIds []) (Ui.conversations s') = Some conv
             /\ Ui.turns s' = map rehydrate (Conversation.turns conv)
       end.
Proof.
  intros s target Hdlg Hne Hactive s' remainingIds.
  assert (Hs' : s' =
    setDeleteConfirmDialog
      {| DeleteDialog.isOpen := false; DeleteDialog.conversationId := None |}
      (let s1 := setConversations (objDelete target (Ui.conversations s)) s in
       if Nat.ltb 0 (List.length remainingIds)
       then switchConversation s (last remainingIds []) s1
       else startNewConversation s1)).
  { subst s'. unfold handleConfirmDelete. rewrite Hdlg. simpl.
    apply truthy_nonempty in Hne. rewrite Hne. simpl.
    rewrite Hactive. simpl. rewrite str_eqb_refl. reflexivity. }
  destruct remainingIds as [|k0 rest] eqn:Erem.
  - rewrite Hs'. simpl. repeat split. apply objGet_objDelete_same.
  - set (k := last (k0 :: rest) []) in *.
    assert (Hin : In k (filter (fun k => negb (str_eqb k target))
                          (objKeys (Ui.conversations s)))).
    { fold remainingIds. rewrite Erem. apply last_in. discriminate. }
    apply filter_In in Hin. destruct Hin as [Hkey Hk].
    apply negb_true_iff in Hk.
    destruct (objGet_of_key _ _ Hkey) as [conv Hconv].
    assert (Hsw : opt_str_eqb (Some k) (Ui.conversationId s) = false).
    { rewrite Hactive. exact Hk. }
    rewrite Hs'. simpl. unfold switchConversation. rewrite Hsw, Hconv. simpl.
    split; [reflexivity|]. split; [apply objGet_objDelete_same|].
    exists conv. split; [reflexivity|]. split; [|reflexivity].
    rewrite objGet_objDelete_other; [exact Hconv|].
    apply str_eqb_neq. exact Hk.
Qed.

Lemma delete_active_falls_back_to_last_key_witness :
  Ui.conversationId (handleConfirmDelete sampleThreeConversations)
    = Some (js "b")
  /\ objGet (js "c")
       (Ui.conversations (handleConfirmDelete sampleThreeConversations)) = None.
Proof.
  destruct (@delete_active_falls_back_to_last_key sampleThreeConversations
              (js "c") eq_refl ltac:(discriminate) eq_refl)
    as (_ & Hgone & conv & Hid & _).
  split; [exact Hid | exact Hgone].
Defined.

(** ** What the save effect persists *)

(** C3 at a failing input.  The save effect filters on the sentinels
    [__LOADING__] and [loading], not on the stage: the second question,
    still in stage [answering], is written to the store, reaches
    [localStorage], and is displayed in stage [answering] after a reload. *)
Theorem in_flight_turn_is_persisted :
  exists conv t,
    objGet (js "c-1") (Ui.conversations sampleSecondQuestionInFlight) = Some conv
    /\ nth_error (Conversation.turns conv) 1 = Some t
    /\ id t = js "turn-2"
    /\ reasoningStage t = Some answering
    /\ inFlight t = true
    /\ isCompleteTurn t = true
    /\ Storage.conversations (persist sampleSecondQuestionInFlight emptyStorage)
       = Some (Ui.conversations sampleSecondQuestionInFlight)
    /\ nth_error (Ui.turns (reload sampleSecondQuestionInFlight)) 1 = Some t.
Proof.
  eexists _, _. split; [vm_compute; reflexivity|].
  split; [vm_compute; reflexivity|].
  repeat split; vm_compute; reflexivity.
Qed.

(** ** Persisting and reloading a conversation *)

Lemma objGet_objSet_same (k : jsstring) (v : Conversation.t)
    (m : ConversationMap) :
  objGet k (objSet k v m) = Some v.
Proof.
  induction m as [|[k' v'] m IH]; simpl.
  - rewrite str_eqb_refl. reflexivity.
  - destruct (str_eqb k' k) eqn:E; simpl; rewrite E; [reflexivity | exact IH].
Qed.

Lemma objSet_has_keys (k : jsstring) (v : Conversation.t)
    (m : ConversationMap) :
  Nat.ltb 0 (List.length (objKeys (objSet k v m))) = true.
Proof.
  destruct m as [|[k' v'] m]; simpl; [reflexivity|].
  destruct (str_eqb k' k); reflexivity.
Qed.

Lemma filter_keeps_all (A : Type) (f : A -> bool) (l : list A) :
  Forall (fun x => f x = true) l -> filter f l = l.
Proof.
  induction 1 as [|x l Hx _ IH]; simpl; [reflexivity|].
  rewrite Hx, IH. reflexivity.
Qed.

Lemma map_fixes_all (A : Type) (f : A -> A) (l : list A) :
  Forall (fun x => f x = x) l -> map f l = l.
Proof.
  induction 1 as [|x l Hx _ IH]; simpl; [reflexivity|].
  rewrite Hx, IH. reflexivity.
Qed.

Lemma or_null_fixed (o : option jsstring) : o <> Some [] -> or_null o = o.
Proof.
  destruct o as [[|c r]|]; intros H; unfold or_null; simpl;
    [exfalso; apply H; reflexivity | reflexivity | reflexivity].
Qed.

Lemma rehydrate_fixed (t : Turn) :
  reasoningStage t = Some done -> noEmptyOptionals t -> rehydrate t = t.
Proof.
  intros Hst (H1 & H2 & H3 & H4 & H5 & H6).
  destruct t as [i c o m it tp rp rs ep fa dr pf st cv ii sr].
  simpl in *. unfold rehydrate. simpl.
  rewrite (or_null_fixed H1), (or_null_fixed H2), (or_null_fixed H3),
    (or_null_fixed H5), Hst.
  destruct sr as [b|]; [|congruence].
  destruct pf as [[[|x y]|l]|]; simpl; try reflexivity. congruence.
Qed.

(** A reload displays the stored turns of the active conversation. *)
Lemma reload_of_stored (s : Ui.State) (cid : jsstring) (conv : Conversation.t) :
  Ui.conversationId s = Some cid -> cid <> [] ->
  objGet cid (Ui.conversations s) = Some conv ->
  Ui.conversationId (reload s) = Some cid
  /\ Ui.turns (reload s)
     = map rehydrate (filter isCompleteTurn (Conversation.turns conv))
  /\ Ui.conversations (reload s) = Ui.conversations s.
Proof.
  intros Hid Hne Hget.
  assert (Hkeys : Nat.ltb 0 (List.length (objKeys (Ui.conversations s))) = true).
  { destruct (Ui.conversations s); [discriminate | reflexivity]. }
  apply truthy_nonempty in Hne.
  unfold reload, persist, saveActiveConversationEffect,
    saveConversationsEffect, loadOnMount.
  cbn [Storage.conversations Storage.activeConversation].
  rewrite Hid, Hkeys. cbn [truthy_opt or_empty]. rewrite Hne.
  cbn [truthy_opt or_empty]. rewrite Hne, Hget.
  repeat split.
Qed.

(** C8, as stated, fails: a turn in stage [done] whose intent is the string
    [loading] is dropped by the save filter.  Of the two answered turns only
    the second is stored and reloaded, and the stored title is taken from
    the second question. *)
Lemma roundtrip_counterexample :
  Forall (fun t => reasoningStage t = Some done) (Ui.turns sampleTwoAnswered)
  /\ map id (Ui.turns sampleTwoAnswered) = [js "turn-1"; js "turn-2"]
  /\ map id (Ui.turns (reload (saveTurnsEffect 10 sampleTwoAnswered)))
     = [js "turn-2"]
  /\ Ui.turns (reload (saveTurnsEffect 10 sampleTwoAnswered))
     <> Ui.turns sampleTwoAnswered
  /\ option_map Conversation.title
       (objGet (js "c-1")
          (Ui.conversations (saveTurnsEffect 10 sampleTwoAnswered)))
     = Some (js "What is reinforcement learning?").
Proof.
  split; [vm_compute; repeat constructor|].
  split; [vm_compute; reflexivity|].
  split; [vm_compute; reflexivity|].
  split; [vm_compute; discriminate | vm_compute; reflexivity].
Qed.

(** C8, amended.  For an active conversation with at least one turn, all
    turns in stage [done], none carrying a sentinel of the save filter
    (answer [__LOADING__], intent [loading]) and none with an empty string
    in an optional text field: the save effect stores the same ordered turn
    list under a title computed from the first prompt; a reload of the page
    and a switch to the conversation both display the same ordered turn
    list; and saving again after the reload gives the same title. *)
Theorem persist_reload_roundtrip :
  forall (s : Ui.State) (cid : jsstring) (now : N),
    Ui.conversationId s = Some cid ->
    cid <> [] ->
    Ui.turns s <> [] ->
    Forall (fun t => reasoningStage t = Some done) (Ui.turns s) ->
    Forall (fun t => isCompleteTurn t = true) (Ui.turns s) ->
    Forall noEmptyOptionals (Ui.turns s) ->
    let saved := saveTurnsEffect now s in
    objGet cid (Ui.conversations saved)
      = Some {| Conversation.turns := Ui.turns s;
                Conversation.title := titleOf (Ui.turns s);
                Conversation.updatedAt := now |}
    /\ Ui.conversationId (reload saved) = Some cid
    /\ Ui.turns (reload saved) = Ui.turns s
    /\ (forall other : Ui.State,
          Ui.conversationId other <> Some cid ->
          Ui.conversations other = Ui.conversations saved ->
          Ui.conversationId (switchConversation other cid other) = Some cid
          /\ Ui.turns (switchConversation other cid other) = Ui.turns s)
    /\ (forall later : N,
          option_map Conversation.title
            (objGet cid (Ui.conversations (saveTurnsEffect later (reload saved))))
          = Some (titleOf (Ui.turns s))).
Proof.
  intros s cid now Hactive Hcid Hne Hdone Hcomplete Hshape saved.
  assert (Hfix : map rehydrate (Ui.turns s) = Ui.turns s).
  { apply map_fixes_all. rewrite Forall_forall in *.
    intros t Ht. apply rehydrate_fixed; auto. }
  assert (Hlen : Nat.ltb 0 (List.length (Ui.turns s)) = true).
  { destruct (Ui.turns s); [congruence | reflexivity]. }
  assert (Htruthy : truthy cid = true) by (apply truthy_nonempty; exact Hcid).
  assert (Hsaved : Ui.conversations saved =
            objSet cid {| Conversation.turns := Ui.turns s;
                          Conversation.title := titleOf (Ui.turns s);
                          Conversation.updatedAt := now |}
              (Ui.conversations s)
          /\ Ui.conversationId saved = Some cid).
  { subst saved. unfold saveTurnsEffect. rewrite Hactive. simpl.
    rewrite Htruthy. simpl. rewrite (filter_keeps_all _ Hcomplete), Hlen.
    simpl. auto. }
  destruct Hsaved as [Hconvs Hid].
  assert (Hget : objGet cid (Ui.conversations saved)
                 = Some {| Conversation.turns := Ui.turns s;
                           Conversation.title := titleOf (Ui.turns s);
                           Conversation.updatedAt := now |}).
  { rewrite Hconvs. apply objGet_objSet_same. }
  assert (Hreload : Ui.conversationId (reload saved) = Some cid
                    /\ Ui.turns (reload saved) = Ui.turns s).
  { destruct (reload_of_stored saved Hid Hcid Hget) as (H1 & H2 & _).
    split; [exact H1|]. rewrite H2. simpl.
    rewrite (filter_keeps_all _ Hcomplete). exact Hfix. }
  destruct Hreload as [Hrid Hrturns].
  split; [exact Hget|]. split; [exact Hrid|]. split; [exact Hrturns|]. split.
  - intros other Hother Hsame. unfold switchConversation.
    assert (E : opt_str_eqb (Some cid) (Ui.conversationId other) = false).
    { destruct (Ui.conversationId other) as [c|]; simpl; [|reflexivity].
      apply str_eqb_neq. congruence. }
    rewrite E, Hsame, Hget. simpl. rewrite Hfix. auto.
  - intros later. unfold saveTurnsEffect. rewrite Hrid. simpl.
    rewrite Htruthy. simpl. rewrite Hrturns.
    rewrite (filter_keeps_all _ Hcomplete), Hlen. simpl.
    rewrite objGet_objSet_same. reflexivity.
Qed.

Lemma persist_reload_roundtrip_witness :
  Ui.conversationId (reload (saveTurnsEffect 10 sampleOneAnswered))
    = Some (js "c-1")
  /\ Ui.turns (reload (saveTurnsEffect 10 sampleOneAnswered))
     = Ui.turns sampleOneAnswered.
Proof.
  destruct (@persist_reload_roundtrip sampleOneAnswered (js "c-1") 10
              eq_refl ltac:(discriminate) ltac:(discriminate)
              ltac:(repeat constructor) ltac:(repeat constructor)
              ltac:(repeat constructor; discriminate))
    as (_ & H1 & H2 & _).
  split; assumption.
Defined.

(** ** The reasoning transform *)

Lemma whiteSpace_not_marker (c : N) :
  isWhiteSpace c = true -> isBulletMarker c = false.
Proof.
  intros H. unfold isBulletMarker.
  destruct (N.eqb_spec c 45) as [->|_]; [discriminate H|].
  destruct (N.eqb_spec c 8226) as [->|_]; [discriminate H|].
  destruct (N.eqb_spec c 42) as [->|_]; [discriminate H|].
  reflexivity.
Qed.

Lemma trimStart_head (s : jsstring) :
  trimStart s = []
  \/ exists c r, trimStart s = c :: r /\ isWhiteSpace c = false.
Proof.
  induction s as [|c r IH]; simpl; [left; reflexivity|].
  destruct (isWhiteSpace c) eqn:E; [exact IH|].
  right. exists c, r. auto.
Qed.

Lemma trimEnd_cons (c : N) (r : jsstring) :
  isWhiteSpace c = false -> trimEnd (c :: r) = c :: trimEnd r.
Proof.
  intros H. simpl. rewrite H. destruct (trimEnd r); reflexivity.
Qed.

Lemma trimEnd_idempotent (s : jsstring) : trimEnd (trimEnd s) = trimEnd s.
Proof.
  induction s as [|c r IH]; [reflexivity|].
  simpl. destruct (trimEnd r) as [|x y] eqn:E.
  - destruct (isWhiteSpace c) eqn:W; simpl; [reflexivity|].
    rewrite W. reflexivity.
  - change (trimEnd (c :: x :: y)) with
      (match trimEnd (x :: y) with
       | [] => if isWhiteSpace c then [] else [c]
       | r' => c :: r'
       end).
    rewrite IH. reflexivity.
Qed.

Lemma trim_idempotent (s : jsstring) : trim (trim s) = trim s.
Proof.
  unfold trim. destruct (trimStart_head s) as [E | (c & r & E & W)].
  - rewrite E. reflexivity.
  - rewrite E. rewrite (@trimEnd_cons c r W).
    change (trimStart (c :: trimEnd r))
      with (if isWhiteSpace c then trimStart (trimEnd r) else c :: trimEnd r).
    rewrite W. rewrite (@trimEnd_cons c (trimEnd r) W), trimEnd_idempotent.
    reflexivity.
Qed.

(** A blank line stays blank when the bullet marker is stripped. *)
Lemma blank_line_has_no_bullet (line : jsstring) :
  truthy (trim line) = false ->
  truthy (trim (stripBulletMarker line)) = false.
Proof.
  intros H. destruct line as [|c r]; [exact H|].
  simpl. destruct (isBulletMarker c) eqn:M; [|exact H].
  unfold trim in H. simpl in H.
  destruct (isWhiteSpace c) eqn:W.
  - rewrite (@whiteSpace_not_marker c W) in M. discriminate.
  - fold (trimEnd (c :: r)) in H. rewrite (@trimEnd_cons c r W) in H.
    discriminate.
Qed.

(** The first filter of the transform is subsumed by the second. *)
Lemma bullets_prefilter (lines : list jsstring) :
  filter truthy
    (map (fun line => trim (stripBulletMarker line))
         (filter (fun line => truthy (trim line)) lines))
  = filter truthy (map (fun line => trim (stripBulletMarker line)) lines).
Proof.
  induction lines as [|l ls IH]; [reflexivity|].
  simpl. destruct (truthy (trim l)) eqn:E; simpl.
  - rewrite IH. reflexivity.
  - rewrite (@blank_line_has_no_bullet l E). exact IH.
Qed.

Lemma bulletsOfText_cases (text : jsstring) :
  bulletsOfText text =
  match filter truthy (map (fun line => trim (stripBulletMarker line))
                           (split LF text)) with
  | [] => if truthy (trim text) then [trim text] else []
  | b :: bs => b :: bs
  end.
Proof.
  unfold bulletsOfText. rewrite bullets_prefilter.
  destruct (filter truthy _) as [|b bs]; simpl; [|reflexivity].
  destruct (truthy (trim text)); reflexivity.
Qed.

Lemma bulletsOfText_trimmed (text : jsstring) :
  Forall (fun b => b <> [] /\ trim b = b) (bulletsOfText text).
Proof.
  rewrite bulletsOfText_cases.
  destruct (filter truthy _) as [|b bs] eqn:E.
  - destruct (truthy (trim text)) eqn:T; constructor; [|constructor].
    split; [apply truthy_nonempty; exact T | apply trim_idempotent].
  - rewrite <- E. apply Forall_forall. intros x Hx.
    apply filter_In in Hx. destruct Hx as [Hmap Ht].
    apply in_map_iff in Hmap. destruct Hmap as (l & <- & _).
    split; [apply truthy_nonempty; exact Ht | apply trim_idempotent].
Qed.

(** [s.split('.')[0]] is the text before the first full stop. *)
Lemma split_first (c : N) (s : jsstring) :
  ~ In c (hd [] (split c s))
  /\ if includes c s
     then exists rest, s = hd [] (split c s) ++ c :: rest
     else s = hd [] (split c s).
Proof.
  induction s as [|x r [IHn IHs]]; simpl; [tauto|].
  unfold includes in *. simpl.
  destruct (N.eqb_spec x c) as [->|Hne].
  - rewrite N.eqb_refl. simpl. split; [tauto|]. exists r. reflexivity.
  - assert (E : (c =? x) = false) by (apply N.eqb_neq; congruence).
    rewrite E. simpl.
    destruct (split c r) as [|h t]; simpl in *.
    + split; [intros [?|[]]; congruence|].
      destruct (existsb (N.eqb c) r).
      * destruct IHs as [rest ->]. exists rest. reflexivity.
      * subst r. reflexivity.
    + split; [intros [?|?]; [congruence | tauto]|].
      destruct (existsb (N.eqb c) r).
      * destruct IHs as [rest ->]. exists rest. reflexivity.
      * subst r. reflexivity.
Qed.

(** Markers, indentation and the two trims. *)
Lemma marker_not_whiteSpace (c : N) :
  isBulletMarker c = true -> isWhiteSpace c = false.
Proof.
  intros M. destruct (isWhiteSpace c) eqn:W; [|reflexivity].
  rewrite (@whiteSpace_not_marker c W) in M. discriminate.
Qed.

Lemma trimStart_idempotent (s : jsstring) : trimStart (trimStart s) = trimStart s.
Proof.
  destruct (trimStart_head s) as [E | (c & r & E & W)]; rewrite E;
    [reflexivity|].
  simpl. rewrite W. reflexivity.
Qed.

Lemma trimEnd_head (s : jsstring) (d : N) (r : jsstring) :
  trimEnd s = d :: r -> exists r0, s = d :: r0.
Proof.
  destruct s as [|c r0]; [discriminate|]. simpl.
  destruct (trimEnd r0).
  - destruct (isWhiteSpace c); [discriminate|].
    intros H. injection H as -> _. exists r0. reflexivity.
  - intros H. injection H as -> _. exists r0. reflexivity.
Qed.

Lemma trimStart_trimEnd (s : jsstring) :
  trimStart (trimEnd s) = trimEnd (trimStart s).
Proof.
  induction s as [|c r IH]; [reflexivity|].
  destruct (isWhiteSpace c) eqn:W.
  - change (trimStart (c :: r)) with
      (if isWhiteSpace c then trimStart r else c :: r).
    rewrite W, <- IH. simpl.
    destruct (trimEnd r) as [|x y]; [rewrite W; reflexivity|].
    change (trimStart (c :: x :: y))
      with (if isWhiteSpace c then trimStart (x :: y) else c :: x :: y).
    rewrite W. reflexivity.
  - change (trimStart (c :: r)) with
      (if isWhiteSpace c then trimStart r else c :: r).
    rewrite W, (@trimEnd_cons c r W).
    simpl. rewrite W. reflexivity.
Qed.

Lemma trimStart_length (s : jsstring) :
  (List.length (trimStart s) <= List.length s)%nat.
Proof.
  induction s as [|c r IH]; simpl; [lia|].
  destruct (isWhiteSpace c); simpl; lia.
Qed.

Lemma spec_stripMarkers_length (s : jsstring) :
  (List.length (spec_stripMarkers s) <= List.length s)%nat.
Proof.
  induction s as [|c r IH]; [simpl; lia|].
  change (spec_stripMarkers (c :: r))
    with (if isBulletMarker c then spec_stripMarkers r else trimStart (c :: r)).
  destruct (isBulletMarker c).
  - simpl List.length. lia.
  - apply trimStart_length.
Qed.

(** On a line whose marker, if any, stands at its first character and is
    not doubled, stripping before trimming gives what the specification
    describes. *)
Lemma bullet_of_plain_line (line : jsstring) :
  indentedMarker line = false -> doubledMarker line = false ->
  trim (stripBulletMarker line) = spec_stripMarkers (trim line).
Proof.
  intros Hind Hdbl. destruct line as [|c r]; [reflexivity|].
  unfold indentedMarker, doubledMarker in *.
  change (markerAtStart (c :: r)) with (isBulletMarker c) in Hind.
  simpl stripBulletMarker.
  destruct (isBulletMarker c) eqn:M.
  - pose proof (@marker_not_whiteSpace c M) as W.
    change (trimStart (c :: r))
      with (if isWhiteSpace c then trimStart r else c :: r) in Hdbl.
    rewrite W in Hdbl.
    unfold trim. rewrite trimStart_idempotent.
    change (trimStart (c :: r))
      with (if isWhiteSpace c then trimStart r else c :: r).
    rewrite W, (@trimEnd_cons c r W).
    change (spec_stripMarkers (c :: trimEnd r))
      with (if isBulletMarker c then spec_stripMarkers (trimEnd r)
            else trimStart (c :: trimEnd r)).
    rewrite M, <- trimStart_trimEnd.
    destruct (trimEnd r) as [|d r'] eqn:E; [reflexivity|].
    destruct (trimEnd_head _ E) as [r0 ->].
    rewrite M in Hdbl. simpl in Hdbl.
    change (spec_stripMarkers (d :: r'))
      with (if isBulletMarker d then spec_stripMarkers r'
            else trimStart (d :: r')).
    rewrite Hdbl. reflexivity.
  - change (markerAtStart (trimStart (c :: r)) = false) in Hind.
    unfold trim.
    destruct (trimStart_head (c :: r)) as [E | (e & r' & E & W)].
    + rewrite E. reflexivity.
    + rewrite E in *. simpl in Hind. rewrite (@trimEnd_cons e r' W).
      change (spec_stripMarkers (e :: trimEnd r'))
        with (if isBulletMarker e then spec_stripMarkers (trimEnd r')
              else trimStart (e :: trimEnd r')).
      rewrite Hind. simpl. rewrite W. reflexivity.
Qed.

(** On a line whose marker stands behind indentation the marker is kept. *)
Lemma bullet_of_indented_line (line : jsstring) :
  indentedMarker line = true ->
  exists m r,
    trim (stripBulletMarker line) = m :: r
    /\ isBulletMarker m = true
    /\ (List.length (spec_stripMarkers (trim line))
        < List.length (trim (stripBulletMarker line)))%nat.
Proof.
  unfold indentedMarker. intros H. apply andb_true_iff in H.
  destruct H as [H1 H2]. apply negb_true_iff in H1.
  assert (E : stripBulletMarker line = line).
  { destruct line as [|c r]; [reflexivity|]. simpl in *. rewrite H1.
    reflexivity. }
  rewrite E. unfold trim.
  destruct (trimStart line) as [|m r0]; [discriminate|]. simpl in H2.
  pose proof (@marker_not_whiteSpace m H2) as W.
  rewrite (@trimEnd_cons m r0 W).
  exists m, (trimEnd r0). split; [reflexivity|]. split; [exact H2|].
  change (spec_stripMarkers (m :: trimEnd r0))
    with (if isBulletMarker m then spec_stripMarkers (trimEnd r0)
          else trimStart (m :: trimEnd r0)).
  rewrite H2. pose proof (spec_stripMarkers_length (trimEnd r0)).
  simpl List.length. lia.
Qed.

Lemma bullets_of_plain_text (text : jsstring) :
  Forall (fun line => indentedMarker line = false /\ doubledMarker line = false)
    (split LF text) ->
  bulletsOfText text = spec_bullets text.
Proof.
  intros Hall. rewrite bulletsOfText_cases. unfold spec_bullets.
  assert (E : map (fun line => trim (stripBulletMarker line)) (split LF text)
              = map (fun line => spec_stripMarkers (trim line))
                    (split LF text)).
  { apply map_ext_in. intros line Hin. rewrite Forall_forall in Hall.
    destruct (Hall line Hin). apply bullet_of_plain_line; assumption. }
  rewrite E. destruct (filter truthy _); reflexivity.
Qed.

(** C9.  The transform of a turn always yields a result, and its bullets
    are non-empty and trimmed.  The bullet marker of a line is looked for
    at the very first character of the raw line, before the line is
    trimmed: on feedback whose markers stand at the start of their lines
    (and are not doubled) the bullets are the trimmed lines with their
    markers stripped, the whole trimmed text when there is none, as
    specified; on a line whose marker stands behind indentation the bullet
    keeps its marker.  So the nested bullet of the sample feedback is
    shown as [- with numbered steps] where [with numbered steps] is
    specified.  For a non-empty rationale the summary is the text up to
    and including the first full stop, or the whole rationale if it has
    none.  For an absent or empty rationale it is the fallback sentence,
    built from the formatted intent, or from the word [understanding] when
    the intent is absent or empty. *)
Theorem transform_bullets_and_summary :
  (forall (toUpperCase : jsstring -> jsstring) (t : Turn),
   exists data,
     transformTurnToReasoningData toUpperCase (Some t) = Some data
     /\ (forall text,
           promptFeedback t = Some (FeedbackText text) ->
           Forall (fun b => b <> [] /\ trim b = b)
             (ReasoningData.reasoningBullets data)
           /\ (Forall (fun line => indentedMarker line = false
                                   /\ doubledMarker line = false)
                 (split LF text) ->
               ReasoningData.reasoningBullets data = spec_bullets text))
     /\ (forall r,
           decisionRationale t = Some r -> r <> [] ->
           exists pre,
             ~ In FULL_STOP pre
             /\ ((exists rest, r = pre ++ FULL_STOP :: rest
                               /\ ReasoningData.summary data = pre ++ [FULL_STOP])
                 \/ (r = pre /\ ReasoningData.summary data = r)))
     /\ (decisionRationale t = None \/ decisionRationale t = Some [] ->
         ReasoningData.summary data =
           js "The agent interpreted your prompt as seeking "
           ++ match intent t with
              | Some (c :: i) => formatWords toUpperCase (c :: i)
              | _ => js "understanding"
              end
           ++ js "."))
  /\ (forall line,
        indentedMarker line = true ->
        exists m r,
          trim (stripBulletMarker line) = m :: r
          /\ isBulletMarker m = true
          /\ (List.length (spec_stripMarkers (trim line))
              < List.length (trim (stripBulletMarker line)))%nat)
  /\ option_map ReasoningData.reasoningBullets
       (transformTurnToReasoningData asciiToUpperCase (Some sampleNestedTurn))
     = Some [js "Added structure"; js "- with numbered steps"]
  /\ spec_bullets sampleNestedFeedback
     = [js "Added structure"; js "with numbered steps"].
Proof.
  split; [|split; [exact bullet_of_indented_line|
                   split; vm_compute; reflexivity]].
  intros toUpperCase t. eexists. split; [reflexivity|]. simpl.
  split; [|split].
  - intros text Hfb. unfold reasoningBulletsOf. rewrite Hfb. simpl.
    destruct text as [|c r].
    + simpl. split; [constructor | reflexivity].
    + simpl truthy. cbv iota.
      split; [apply bulletsOfText_trimmed | apply bullets_of_plain_text].
  - intros r Hr Hne. unfold summaryOf. rewrite Hr. simpl.
    apply truthy_nonempty in Hne. rewrite Hne.
    destruct (split_first FULL_STOP r) as [Hnot Hsplit].
    exists (hd [] (split FULL_STOP r)). split; [exact Hnot|].
    destruct (includes FULL_STOP r).
    + left. destruct Hsplit as [rest Hrest]. exists rest.
      split; [exact Hrest | reflexivity].
    + right. rewrite app_nil_r. split; [exact Hsplit | congruence].
  - intros Hr. unfold summaryOf.
    assert (E : truthy_opt (decisionRationale t) = false)
      by (destruct Hr as [-> | ->]; reflexivity).
    rewrite E. destruct (intent t) as [[|c i]|]; reflexivity.
Qed.

Lemma transform_bullets_and_summary_witness :
  exists data,
    transformTurnToReasoningData asciiToUpperCase
      (Some (withRewrite sampleData samplePendingTurn)) = Some data
    /\ ReasoningData.reasoningBullets data
       = [js "Added structure"; js "Asked for an example"]
    /\ exists pre rest,
         js "The prompt asks for a concept. A structured rewrite helps."
           = pre ++ FULL_STOP :: rest
         /\ ReasoningData.summary data = pre ++ [FULL_STOP].
Proof.
  destruct (proj1 transform_bullets_and_summary asciiToUpperCase
              (withRewrite sampleData samplePendingTurn))
    as (data & Hdata & Hbullets & Hsummary & _).
  exists data. split; [exact Hdata|]. split.
  - destruct (Hbullets
                (js "- Added structure" ++ [LF] ++ js "- Asked for an example")
                eq_refl) as [_ Hspec].
    rewrite Hspec; [vm_compute; reflexivity|].
    vm_compute. repeat constructor.
  - destruct (Hsummary _ eq_refl ltac:(discriminate))
      as (pre & _ & [(rest & H1 & H2) | [H1 H2]]).
    + exists pre, rest. split; assumption.
    + exfalso. revert H2. injection Hdata as <-. vm_compute. discriminate.
Defined.

(** ** The edited prompt and the chosen variant *)

Lemma unchosen_consistent (t : Turn) : unchosen t -> editedConsistent t.
Proof.
  intros [Hc He]. split; [rewrite Hc; discriminate | congruence].
Qed.

(** An update that keeps the variant and the edited prompt. *)
Lemma consistent_transfer (t t' : Turn) :
  chosenPromptVersion t' = chosenPromptVersion t ->
  edited_prompt t' = edited_prompt t ->
  editedConsistent t -> editedConsistent t'.
Proof. unfold editedConsistent. intros -> ->. tauto. Qed.

Lemma rehydrate_consistent (t : Turn) :
  editedConsistent t -> editedConsistent (rehydrate t).
Proof.
  intros [H1 H2]. split; simpl.
  - intros Hc. rewrite (or_null_truthy _ (H1 Hc)). auto.
  - intros He. apply H2. intros Hn. apply He. rewrite Hn. reflexivity.
Qed.

Lemma choice_consistent (version : PromptChoice) (turn t : Turn)
    (d : jsstring) :
  editedConsistent
    (withChoice (actualVersion version (isEdited turn d))
       (finalEditedPrompt (actualVersion version (isEdited turn d))
          (isEdited turn d) d) t).
Proof.
  rewrite finalEditedPrompt_cases, actualVersion_cases.
  destruct (isEdited turn d) eqn:E.
  - apply isEdited_spec in E. destruct E as (r & _ & _ & _ & Hd).
    apply truthy_nonempty in Hd.
    split; simpl; [intros _; exact Hd|].
    intros _. destruct version; auto.
  - split; simpl; [destruct version; discriminate | congruence].
Qed.

Lemma Forall_mapTurn (P : Turn -> Prop) (turnId : jsstring)
    (f : Turn -> Turn) (ts : list Turn) :
  (forall t, In t ts -> id t = turnId -> P (f t)) ->
  Forall P ts -> Forall P (mapTurn turnId f ts).
Proof.
  intros Hf Hall. unfold mapTurn. apply Forall_forall. intros x Hx.
  apply in_map_iff in Hx. destruct Hx as (t & <- & Hin).
  rewrite Forall_forall in Hall.
  destruct (str_eqb (id t) turnId) eqn:E; [|auto].
  apply Hf; [exact Hin | apply str_eqb_eq; exact E].
Qed.

Lemma Forall_filter (A : Type) (P : A -> Prop) (f : A -> bool) (l : list A) :
  Forall P l -> Forall P (filter f l).
Proof.
  rewrite !Forall_forall. intros H x Hx. apply filter_In in Hx. apply H. tauto.
Qed.

Lemma Forall_objSet (P : jsstring * Conversation.t -> Prop) (k : jsstring)
    (v : Conversation.t) (m : ConversationMap) :
  (forall k', P (k', v)) -> Forall P m -> Forall P (objSet k v m).
Proof.
  intros Hv. induction 1 as [|[k' v'] m Hx Hm IH]; simpl.
  - constructor; [apply Hv | constructor].
  - destruct (str_eqb k' k); constructor; auto.
Qed.

Lemma objGet_In (k : jsstring) (m : ConversationMap) (v : Conversation.t) :
  objGet k m = Some v -> exists k', In (k', v) m.
Proof.
  induction m as [|[k' v'] m IH]; simpl; [discriminate|].
  destruct (str_eqb k' k).
  - intros [= ->]. exists k'. left. reflexivity.
  - intros H. destruct (IH H) as [k'' Hin]. exists k''. right. exact Hin.
Qed.

Lemma stored_turns_consistent (m : ConversationMap) (k : jsstring)
    (conv : Conversation.t) :
  Forall (fun e => Forall editedConsistent (Conversation.turns (snd e))) m ->
  objGet k m = Some conv ->
  Forall editedConsistent (Conversation.turns conv).
Proof.
  intros Hall Hget. destruct (objGet_In _ _ Hget) as [k' Hin].
  rewrite Forall_forall in Hall. exact (Hall _ Hin).
Qed.

Lemma Forall_map_rehydrate (ts : list Turn) :
  Forall editedConsistent ts -> Forall editedConsistent (map rehydrate ts).
Proof.
  intros H. apply Forall_forall. intros x Hx. apply in_map_iff in Hx.
  destruct Hx as (t & <- & Hin). apply rehydrate_consistent.
  rewrite Forall_forall in H. auto.
Qed.

Lemma adoptConversationId_frame (render : Ui.State)
    (data : InteractResponse.t) (s : Ui.State) :
  Ui.turns (adoptConversationId render data s) = Ui.turns s
  /\ Ui.pendingTurn (adoptConversationId render data s) = Ui.pendingTurn s
  /\ Ui.conversations (adoptConversationId render data s) = Ui.conversations s.
Proof.
  unfold adoptConversationId.
  destruct (truthy _ && negb _); repeat split.
Qed.

(** The three parts of the invariant, when the operation leaves them as
    they are. *)
Ltac invariant_unchanged := split; [|split]; simpl; assumption.

Lemma perform_preserves (op : Operation) (s : Ui.State) :
  editedInvariant s -> admissible (Workflow op) s ->
  editedInvariant (perform op s).
Proof.
  intros (Ht & Hp & Hc) Hadm. destruct op; simpl perform.
  - (* Submit *)
    unfold handleSubmit.
    destruct (negb (truthy (trim (Ui.prompt s)))); [invariant_unchanged|].
    destruct (negb (Ui.enhancerEnabled s)); simpl.
    + split; [|split; assumption]. simpl.
      apply Forall_app. split; [exact Ht|].
      constructor; [|constructor].
      split; simpl; [discriminate | congruence].
    + split; [exact Ht|]. split; [|exact Hc]. simpl.
      intros p [= <-]. split; reflexivity.
  - (* DirectResolved *)
    unfold handleSubmit_direct_resolved.
    destruct (adoptConversationId_frame render data s) as (E1 & E2 & E3).
    split; [|split]; simpl; rewrite ?E1, ?E2, ?E3; try assumption.
    apply Forall_mapTurn; [|exact Ht].
    intros t Hin _. rewrite Forall_forall in Ht.
    apply (@consistent_transfer t); [reflexivity | reflexivity | auto].
  - (* DirectRejected *)
    split; [|split; assumption]. simpl.
    apply Forall_mapTurn; [|exact Ht].
    intros t Hin _. rewrite Forall_forall in Ht.
    apply (@consistent_transfer t); [reflexivity | reflexivity | auto].
  - (* RewriteResolved *)
    unfold handleSubmit_resolved.
    destruct (adoptConversationId_frame render data s) as (E1 & E2 & E3).
    destruct (truthy_opt (InteractResponse.rewritten_prompt data));
      (split; [|split]; simpl; rewrite ?E1, ?E2, ?E3; try assumption;
       intros p Hp'; destruct (Ui.pendingTurn s) as [q|]; [|discriminate];
       injection Hp' as <-; destruct (Hp q eq_refl); split; assumption).
  - (* RewriteRejected *)
    split; [exact Ht|]. split; [|exact Hc]. simpl.
    intros p Hp'. destruct (Ui.pendingTurn s) as [q|]; [|discriminate].
    injection Hp' as <-. destruct (Hp q eq_refl). split; assumption.
  - (* Cancel *)
    unfold closeCompareModal.
    destruct (Ui.pendingTurn s) as [q|];
      [destruct (truthy (originalPrompt q))|];
      (split; [exact Ht|]; split; [|exact Hc]; simpl; discriminate).
  - (* Choose *)
    unfold choosePromptVersion.
    destruct (findTurn turnId s) as [turn|];
      [|invariant_unchanged].
    destruct (Ui.pendingTurn s) as [q|] eqn:Eq;
      [destruct (str_eqb (id q) turnId)|]; simpl.
    + split; [|split]; simpl; [|discriminate|exact Hc].
      apply Forall_app. split; [exact Ht|].
      constructor; [apply choice_consistent | constructor].
    + split; [|split]; simpl; [| |exact Hc].
      * apply Forall_mapTurn; [|exact Ht].
        intros t _ _. apply choice_consistent.
      * rewrite Eq. exact Hp.
    + split; [|split]; simpl; [| |exact Hc].
      * apply Forall_mapTurn; [|exact Ht].
        intros t _ _. apply choice_consistent.
      * rewrite Eq. exact Hp.
  - (* AnswerResolved *)
    split; [|split; assumption]. simpl.
    apply Forall_mapTurn; [|exact Ht].
    intros t Hin _. rewrite Forall_forall in Ht.
    apply (@consistent_transfer t); [reflexivity | reflexivity | auto].
  - (* AnswerRejected *)
    split; [|split; assumption]. simpl.
    apply Forall_mapTurn; [|exact Ht].
    intros t Hin _. rewrite Forall_forall in Ht.
    apply (@consistent_transfer t); [reflexivity | reflexivity | auto].
  - (* RegenerateResolved *)
    unfold handleRegenerate_resolved.
    simpl in Hadm. destruct (isPending turnId render).
    + split; [exact Ht|]. split; [|exact Hc]. simpl.
      intros p Hp'. destruct (Ui.pendingTurn s) as [q|]; [|discriminate].
      injection Hp' as <-. destruct (Hp q eq_refl). split; [assumption|].
      reflexivity.
    + split; [|split; assumption]. simpl.
      apply Forall_mapTurn; [|exact Ht].
      intros t Hin Hid. apply unchosen_consistent. split; simpl.
      * apply Hadm; auto.
      * reflexivity.
Qed.

Lemma switchConversation_preserves (s : Ui.State) (target : jsstring)
    (s1 : Ui.State) :
  editedInvariant s -> editedInvariant s1 ->
  editedInvariant (switchConversation s target s1).
Proof.
  intros (_ & _ & Hc) (Ht1 & Hp1 & Hc1). unfold switchConversation.
  destruct (opt_str_eqb (Some target) (Ui.conversationId s));
    [invariant_unchanged|].
  destruct (objGet target (Ui.conversations s)) as [conv|] eqn:E;
    [|invariant_unchanged].
  split; [|split; simpl; assumption]. simpl.
  apply Forall_map_rehydrate.
  eapply stored_turns_consistent; [exact Hc | exact E].
Qed.

Lemma initial_invariant : editedInvariant Ui.initial.
Proof.
  split; [constructor|]. split; [discriminate | constructor].
Qed.

Lemma loadOnMount_invariant (st : Storage.t) :
  (forall m, Storage.conversations st = Some m ->
     Forall (fun e => Forall editedConsistent (Conversation.turns (snd e))) m) ->
  editedInvariant (loadOnMount st Ui.initial).
Proof.
  intros Hst. unfold loadOnMount.
  destruct (Storage.conversations st) as [m|].
  - specialize (Hst m eq_refl).
    destruct (truthy_opt (Storage.activeConversation st));
      [|split; [|split]; simpl; [constructor | discriminate | assumption]].
    destruct (objGet _ m) as [conv|] eqn:E;
      [|split; [|split]; simpl; [constructor | discriminate | assumption]].
    split; [|split]; simpl; [|discriminate|assumption].
    apply Forall_map_rehydrate, Forall_filter.
    eapply stored_turns_consistent; [exact Hst | exact E].
  - destruct (truthy_opt (Storage.activeConversation st));
      apply initial_invariant.
Qed.

Lemma reload_preserves (s : Ui.State) :
  editedInvariant s -> editedInvariant (reload s).
Proof.
  intros (Ht & Hp & Hc). unfold reload. apply loadOnMount_invariant.
  unfold persist, saveActiveConversationEffect, saveConversationsEffect.
  simpl. destruct (Nat.ltb 0 _); [|discriminate].
  intros m [= <-]. exact Hc.
Qed.

Lemma run_preserves (e : Event) (s : Ui.State) :
  editedInvariant s -> admissible e s -> editedInvariant (run e s).
Proof.
  intros Hinv Hadm.
  destruct e; simpl run;
    try (destruct Hinv as (Ht & Hp & Hc); invariant_unchanged).
  - apply perform_preserves; assumption.
  - (* SaveTurns *)
    destruct Hinv as (Ht & Hp & Hc). unfold saveTurnsEffect.
    destruct (negb (truthy_opt (Ui.conversationId s)));
      [invariant_unchanged|].
    destruct (Nat.ltb 0 _); [|invariant_unchanged].
    split; [exact Ht|]. split; [exact Hp|]. simpl.
    apply Forall_objSet; [|exact Hc].
    intros k'. simpl. apply Forall_filter. exact Ht.
  - (* NewConversation *)
    destruct Hinv as (Ht & Hp & Hc).
    split; [|split]; simpl; [constructor | assumption | assumption].
  - (* SwitchTo *)
    apply switchConversation_preserves; assumption.
  - (* ConfirmDelete *)
    unfold handleConfirmDelete.
    destruct (negb (truthy_opt _)); [exact Hinv|].
    set (target := or_empty _).
    assert (H1 : editedInvariant
                   (setConversations (objDelete target (Ui.conversations s)) s)).
    { destruct Hinv as (Ht & Hp & Hc).
      split; [exact Ht|]. split; [exact Hp|]. simpl.
      apply Forall_filter. exact Hc. }
    assert (H2 : forall s2, editedInvariant s2 ->
                 editedInvariant
                   (setDeleteConfirmDialog
                      {| DeleteDialog.isOpen := false;
                         DeleteDialog.conversationId := None |} s2)).
    { intros s2 (Ht & Hp & Hc). invariant_unchanged. }
    apply H2.
    destruct (opt_str_eqb (Some target) (Ui.conversationId s)); [|exact H1].
    destruct (Nat.ltb 0 _).
    + apply switchConversation_preserves; assumption.
    + destruct H1 as (Ht & Hp & Hc).
      split; [|split]; simpl; [constructor | assumption | assumption].
  - (* Reload *)
    apply reload_preserves. exact Hinv.
Qed.

Lemma reachable_invariant (s : Ui.State) :
  reachable s -> editedInvariant s.
Proof.
  induction 1 as [|e s _ IH Hadm]; [apply initial_invariant|].
  apply run_preserves; assumption.
Qed.

Lemma sampleOriginalAfterEdit_reachable : reachable sampleOriginalAfterEdit.
Proof.
  unfold sampleOriginalAfterEdit.
  apply reachable_runAll; [apply reachable_initial|].
  repeat constructor.
Qed.

(** C1, as stated, fails: the edited prompt can be non-null while the
    variant is [original].  The user edits the draft and then uses the
    original prompt; the turn put in the chat feed carries the draft as its
    edited prompt. *)
Lemma edited_prompt_with_original_counterexample :
  reachable sampleOriginalAfterEdit
  /\ exists t,
       nth_error (Ui.turns sampleOriginalAfterEdit) 0 = Some t
       /\ chosenPromptVersion t = Some use_original
       /\ edited_prompt t
          = Some (js "Explain reinforcement learning to a child.")
       /\ ~ spec_editedIff t.
Proof.
  split.
  - apply sampleOriginalAfterEdit_reachable.
  - eexists. split; [vm_compute; reflexivity|].
    split; [reflexivity|]. split; [reflexivity|].
    unfold spec_editedIff. simpl. intros [H _].
    assert (E : Some use_original = Some use_edited)
      by (apply H; discriminate).
    discriminate E.
Qed.

(** C1, amended.  In every state reached from the initial one by the
    handlers, their continuations, the save effect, conversation management
    and reloads, with regenerate used only before a variant is chosen, every
    turn held (in the chat feed, pending, or stored) satisfies: if its
    variant is [edited] its edited prompt is a non-empty string, and if its
    edited prompt is non-null its variant is [edited] or [original].
    Resolving a turn with [original] stores the trimmed draft as edited
    prompt when the draft was edited and null otherwise. *)
Theorem edited_prompt_invariant :
  (forall (s : Ui.State) (t : Turn),
     reachable s -> holds s t ->
     (chosenPromptVersion t = Some use_edited ->
      exists d, edited_prompt t = Some d /\ d <> [])
     /\ (edited_prompt t <> None ->
         chosenPromptVersion t = Some use_edited
         \/ chosenPromptVersion t = Some use_original))
  /\ (forall (s : Ui.State) (turnId : jsstring) (turn : Turn),
        findTurn turnId s = Some turn ->
        exists s' calls t',
          choosePromptVersion turnId use_original s = (s', calls)
          /\ In t' (Ui.turns s') /\ id t' = turnId
          /\ chosenPromptVersion t' = Some use_original
          /\ edited_prompt t' =
             if isEdited turn (trim (Ui.draftRewrite s))
             then Some (trim (Ui.draftRewrite s)) else None).
Proof.
  split.
  - intros s t Hreach Hholds.
    destruct (reachable_invariant Hreach) as (Ht & Hp & Hc).
    assert (Hcons : editedConsistent t).
    { destruct Hholds as [Hin | [Hpend | (k & conv & Hin & Hin')]].
      - rewrite Forall_forall in Ht. auto.
      - apply unchosen_consistent. auto.
      - rewrite Forall_forall in Hc. specialize (Hc _ Hin). simpl in Hc.
        rewrite Forall_forall in Hc. auto. }
    destruct Hcons as [H1 H2]. split; [|exact H2].
    intros Hv. apply truthy_opt_Some. auto.
  - intros s turnId turn Hfind.
    destruct (choosePromptVersion_found turnId use_original s Hfind)
      as (s' & Hrun & Hin).
    rewrite finalEditedPrompt_cases, actualVersion_cases in Hin.
    eexists s', _, _. split; [exact Hrun|]. split; [exact Hin|]. simpl.
    split; [eapply findTurn_id; eassumption|]. auto.
Qed.

Lemma edited_prompt_invariant_witness :
  exists t,
    nth_error (Ui.turns sampleOriginalAfterEdit) 0 = Some t
    /\ (edited_prompt t <> None ->
        chosenPromptVersion t = Some use_edited
        \/ chosenPromptVersion t = Some use_original).
Proof.
  eexists. split; [vm_compute; reflexivity|].
  refine (proj2 (proj1 edited_prompt_invariant sampleOriginalAfterEdit _
                   sampleOriginalAfterEdit_reachable _)).
  left. vm_compute. left. reflexivity.
Defined.

(** ** Stage lookups *)






Lemma closeCompareModal_cells (s : Ui.State) :
  Ui.pendingTurn (closeCompareModal s) = None
  /\ Ui.turns (closeCompareModal s) = Ui.turns s.
Proof.
  unfold closeCompareModal. destruct (Ui.pendingTurn s) as [p|];
    [destruct (truthy (originalPrompt p))|]; split; reflexivity.
Qed.

Lemma handleSubmit_resolved_cells (render : Ui.State)
    (data : InteractResponse.t) (s : Ui.State) :
  Ui.pendingTurn (handleSubmit_resolved render data s)
    = option_map (withRewrite data) (Ui.pendingTurn s)
  /\ Ui.turns (handleSubmit_resolved render data s) = Ui.turns s.
Proof.
  unfold handleSubmit_resolved.
  destruct (adoptConversationId_frame render data s) as (E1 & E2 & _).
  destruct (truthy_opt _); simpl; rewrite E1, E2; split; reflexivity.
Qed.

Lemma handleSubmit_direct_resolved_cells (render : Ui.State)
    (turnId : jsstring) (data : InteractResponse.t) (s : Ui.State) :
  Ui.pendingTurn (handleSubmit_direct_resolved render turnId data s)
    = Ui.pendingTurn s
  /\ Ui.turns (handleSubmit_direct_resolved render turnId data s)
     = mapTurn turnId (withDirectAnswer data) (Ui.turns s).
Proof.
  unfold handleSubmit_direct_resolved.
  destruct (adoptConversationId_frame render data s) as (E1 & E2 & _).
  simpl. rewrite E1, E2. split; reflexivity.
Qed.



(** * Further properties of the component *)

(** ** Labels and titles *)

(** X1.  The topic pill never exceeds the length asked for (at least the
    three dots): a topic that fits is shown as it is, a longer one is cut
    to [maxLength - 3] units followed by three dots. *)
Theorem truncateTopic_bounded :
  forall (topic : jsstring) (maxLength : nat),
    (List.length (truncateTopic topic maxLength) <= Nat.max maxLength 3)%nat
    /\ ((List.length topic <= maxLength)%nat ->
        truncateTopic topic maxLength = topic)
    /\ ((maxLength < List.length topic)%nat ->
        truncateTopic topic maxLength
        = firstn (maxLength - 3) topic ++ js "...").
Proof.
  intros topic maxLength. unfold truncateTopic.
  destruct topic as [|c r]; simpl truthy; cbv iota beta.
  - simpl. split; [lia|]. split; [reflexivity | simpl; lia].
  - simpl negb. cbv iota.
    destruct (Nat.leb (List.length (c :: r)) maxLength) eqn:E.
    + apply Nat.leb_le in E. split; [lia|]. split; [reflexivity | lia].
    + apply Nat.leb_gt in E. split; [|split; [lia | reflexivity]].
      rewrite length_app, length_firstn. simpl List.length. lia.
Qed.

Lemma truncateTopic_bounded_witness :
  topicPill (js "reinforcement learning with human feedback")
  = js "reinforcement learning with..."
  /\ topicPill (js "reinforcement learning") = js "reinforcement learning".
Proof.
  split.
  - exact (proj2 (proj2 (truncateTopic_bounded
                           (js "reinforcement learning with human feedback") 30))
             ltac:(vm_compute; lia)).
  - exact (proj1 (proj2 (truncateTopic_bounded
                           (js "reinforcement learning") 30))
             ltac:(vm_compute; lia)).
Defined.

(** X2.  The title the save effect gives a conversation is never empty and
    never longer than 53 units; a first prompt of at most 50 units is the
    title itself. *)
Theorem titleOf_bounded :
  forall (t : Turn) (ts : list Turn),
    titleOf (t :: ts) <> []
    /\ (List.length (titleOf (t :: ts)) <= 53)%nat
    /\ (originalPrompt t <> [] ->
        (List.length (originalPrompt t) <= 50)%nat ->
        titleOf (t :: ts) = originalPrompt t)
    /\ ((50 < List.length (originalPrompt t))%nat ->
        titleOf (t :: ts) = firstn 50 (originalPrompt t) ++ js "...").
Proof.
  intros t ts. unfold titleOf.
  destruct (originalPrompt t) as [|c r] eqn:E; simpl truthy; cbv iota.
  - simpl. repeat split; try congruence; try lia. discriminate.
  - destruct (Nat.ltb 50 (List.length (c :: r))) eqn:L.
    + apply Nat.ltb_lt in L. split; [|split; [|split]].
      * simpl. discriminate.
      * rewrite length_app, length_firstn. simpl List.length in *. lia.
      * intros _ H. lia.
      * reflexivity.
    + apply Nat.ltb_ge in L. split; [discriminate|].
      split; [lia|]. split; [reflexivity | lia].
Qed.

Lemma titleOf_bounded_witness :
  titleOf [answeredTurn (js "t-1") (js "c-1") (js "What is Q-learning?") (js "42")]
  = js "What is Q-learning?".
Proof.
  exact (proj1 (proj2 (proj2 (titleOf_bounded
           (answeredTurn (js "t-1") (js "c-1") (js "What is Q-learning?") (js "42"))
           [])))
           ltac:(discriminate) ltac:(vm_compute; lia)).
Defined.

Lemma split_parts_free (c : N) (s : jsstring) :
  Forall (fun part => ~ In c part) (split c s).
Proof.
  induction s as [|x r IH]; simpl.
  - constructor; [tauto | constructor].
  - destruct (N.eqb_spec x c) as [->|Hne].
    + constructor; [tauto | exact IH].
    + destruct (split c r) as [|h t]; [repeat constructor; simpl; intuition|].
      inversion IH as [|? ? Hh Ht]; subst.
      constructor; [|exact Ht]. simpl. intuition.
Qed.

Lemma join_in (sep : jsstring) (parts : list jsstring) (x : N) :
  In x (join sep parts) -> In x sep \/ exists p, In p parts /\ In x p.
Proof.
  induction parts as [|p rest IH]; simpl; [tauto|].
  destruct rest as [|q rest'].
  - intros H. right. exists p. auto.
  - intros H. apply in_app_or in H. destruct H as [H|H].
    + right. exists p. auto.
    + apply in_app_or in H. destruct H as [H|H]; [left; exact H|].
      destruct (IH H) as [H'|(p' & Hp & Hx)]; [left; exact H'|].
      right. exists p'. split; [right; exact Hp | exact Hx].
Qed.

Lemma firstn_skipn_in (A : Type) (n : nat) (l : list A) (x : A) :
  (In x (firstn n l) -> In x l) /\ (In x (skipn n l) -> In x l).
Proof.
  split; intros H; rewrite <- (firstn_skipn n l); apply in_or_app; auto.
Qed.

Lemma formatWords_free (toUpperCase : jsstring -> jsstring)
    (intent : jsstring) :
  (forall u, ~ In LOW_LINE u -> ~ In LOW_LINE (toUpperCase u)) ->
  ~ In LOW_LINE (formatWords toUpperCase intent).
Proof.
  intros Hup H. unfold formatWords in H. apply join_in in H.
  destruct H as [H | (p & Hp & Hx)].
  - vm_compute in H. destruct H as [H|[]]. discriminate H.
  - apply in_map_iff in Hp. destruct Hp as (w & <- & Hw).
    pose proof (split_parts_free LOW_LINE intent) as Hfree.
    rewrite Forall_forall in Hfree. specialize (Hfree w Hw).
    unfold capitalize in Hx. apply in_app_or in Hx. destruct Hx as [Hx|Hx].
    + revert Hx. apply Hup. intros Hin. apply Hfree.
      apply (proj1 (firstn_skipn_in 1 w LOW_LINE)). exact Hin.
    + apply Hfree. apply (proj2 (firstn_skipn_in 1 w LOW_LINE)). exact Hx.
Qed.

(** X3.  A formatted intent never shows an underscore: in the chat
    component, in the modal and in the answer strip, provided upper-casing
    does not produce one. *)
Theorem formatted_intent_has_no_underscore :
  forall (toUpperCase : jsstring -> jsstring),
    (forall u, ~ In LOW_LINE u -> ~ In LOW_LINE (toUpperCase u)) ->
    (forall intent, ~ In LOW_LINE (formatIntent toUpperCase intent))
    /\ (forall intent, ~ In LOW_LINE (formatIntentLabel toUpperCase intent)).
Proof.
  intros toUpperCase Hup. split.
  - intros [i|]; unfold formatIntent.
    + destruct (negb (truthy i) || str_eqb i (js "loading")).
      * vm_compute. intuition discriminate.
      * destruct (str_eqb i (js "error")).
        -- vm_compute. intuition discriminate.
        -- apply formatWords_free. exact Hup.
    + vm_compute. intuition discriminate.
  - intros i. unfold formatIntentLabel. destruct (negb (truthy i)).
    + simpl. tauto.
    + apply formatWords_free. exact Hup.
Qed.

Lemma asciiToUpperCase_free (u : jsstring) :
  ~ In LOW_LINE u -> ~ In LOW_LINE (asciiToUpperCase u).
Proof.
  intros Hu H. unfold asciiToUpperCase in H. apply in_map_iff in H.
  destruct H as (c & Hc & Hin).
  destruct ((97 <=? c) && (c <=? 122)) eqn:E.
  - apply andb_true_iff in E. destruct E as [E1 E2].
    apply N.leb_le in E1, E2. unfold LOW_LINE in Hc. lia.
  - apply Hu. rewrite <- Hc. exact Hin.
Qed.

Lemma formatted_intent_has_no_underscore_witness :
  ~ In LOW_LINE (formatIntent asciiToUpperCase (Some (js "direct_answer"))).
Proof.
  exact (proj1 (@formatted_intent_has_no_underscore asciiToUpperCase
                  asciiToUpperCase_free)
           (Some (js "direct_answer"))).
Defined.

(** ** Blank input *)

Lemma trimStart_blank_iff (s : jsstring) : trimStart s = [] <-> isBlank s.
Proof.
  unfold isBlank. induction s as [|c r IH]; simpl.
  - split; [constructor | reflexivity].
  - destruct (isWhiteSpace c) eqn:W.
    + rewrite IH. split; [intros H; constructor; assumption|].
      intros H. inversion H; assumption.
    + split; [discriminate|]. intros H. inversion H. congruence.
Qed.

Lemma trim_blank_iff (s : jsstring) : truthy (trim s) = false <-> isBlank s.
Proof.
  rewrite <- trimStart_blank_iff. unfold trim.
  destruct (trimStart_head s) as [E | (c & r & E & W)]; rewrite E.
  - split; reflexivity.
  - rewrite (@trimEnd_cons c r W). simpl. split; discriminate.
Qed.

Lemma split_blank (c : N) (s : jsstring) :
  isBlank s -> Forall isBlank (split c s).
Proof.
  unfold isBlank. induction 1 as [|x r Hx Hr IH]; simpl.
  - repeat constructor.
  - destruct (x =? c); [constructor; [constructor | exact IH]|].
    destruct (split c r) as [|h t]; [repeat constructor; assumption|].
    inversion IH; subst. constructor; [constructor|]; assumption.
Qed.

Lemma split_length (c : N) (s : jsstring) :
  (1 <= List.length (split c s))%nat.
Proof.
  induction s as [|x r IH]; simpl; [lia|].
  destruct (x =? c); simpl; [lia|].
  destruct (split c r); simpl in *; lia.
Qed.

Lemma filter_length_le (A : Type) (f : A -> bool) (l : list A) :
  (List.length (filter f l) <= List.length l)%nat.
Proof.
  induction l as [|a l IH]; simpl; [lia|]. destruct (f a); simpl; lia.
Qed.

(** X4.  Feedback text never yields more bullets than it has lines, and
    text made of white space only yields none. *)
Theorem bullets_bounded_by_lines :
  forall text : jsstring,
    (List.length (bulletsOfText text) <= List.length (split LF text))%nat
    /\ (isBlank text -> bulletsOfText text = []).
Proof.
  intros text. rewrite bulletsOfText_cases. split.
  - pose proof (split_length LF text) as Hlen.
    destruct (filter truthy _) as [|b bs] eqn:E.
    + destruct (truthy (trim text)); simpl; lia.
    + rewrite <- E.
      etransitivity; [apply filter_length_le|]. rewrite length_map. lia.
  - intros Hblank.
    assert (Hnone : filter truthy
              (map (fun line => trim (stripBulletMarker line)) (split LF text))
              = []).
    { pose proof (split_blank LF Hblank) as Hlines.
      induction Hlines as [|l ls Hl _ IH]; [reflexivity|].
      simpl. apply trim_blank_iff in Hl.
      rewrite (@blank_line_has_no_bullet l Hl). exact IH. }
    rewrite Hnone. apply trim_blank_iff in Hblank. rewrite Hblank.
    reflexivity.
Qed.

Lemma bullets_bounded_by_lines_witness :
  bulletsOfText (js "   " ++ [LF] ++ js "  ") = [].
Proof.
  apply (proj2 (bullets_bounded_by_lines (js "   " ++ [LF] ++ js "  "))).
  vm_compute. repeat constructor.
Defined.

(** X5.  A prompt made of white space only is not submitted: no call is
    issued and nothing changes.  Any other prompt issues exactly one
    classify call, carrying the prompt as typed (not trimmed), the enhancer
    flag, the mode (null when the enhancer is off) and the active
    conversation id. *)
Theorem submit_blank_is_ignored :
  forall (turnId : jsstring) (s : Ui.State),
    (isBlank (Ui.prompt s) -> handleSubmit turnId s = (s, []))
    /\ (~ isBlank (Ui.prompt s) ->
        exists s' body,
          handleSubmit turnId s = (s', [PostInteract body])
          /\ InteractRequest.prompt body = Ui.prompt s
          /\ InteractRequest.enhancerEnabled body = Ui.enhancerEnabled s
          /\ InteractRequest.mode body
             = (if Ui.enhancerEnabled s then Some (Ui.mode s) else None)
          /\ InteractRequest.conversationId body = Ui.conversationId s).
Proof.
  intros turnId s. unfold handleSubmit. split.
  - intros H. apply trim_blank_iff in H. rewrite H. reflexivity.
  - intros H. destruct (truthy (trim (Ui.prompt s))) eqn:E.
    + simpl negb. cbv iota.
      destruct (Ui.enhancerEnabled s); simpl; eexists _, _;
        (split; [reflexivity|]); repeat split.
    + exfalso. apply H. apply trim_blank_iff. exact E.
Qed.

Lemma submit_blank_is_ignored_witness :
  handleSubmit sampleId (setPrompt (js "  ") Ui.initial)
  = (setPrompt (js "  ") Ui.initial, []).
Proof.
  apply (proj1 (submit_blank_is_ignored sampleId (setPrompt (js "  ") Ui.initial))).
  vm_compute. repeat constructor.
Defined.

(** ** The conversation list and the store *)

Lemma insertByUpdatedAt_perm (e : jsstring * Conversation.t)
    (l : ConversationMap) :
  Permutation (insertByUpdatedAt e l) (e :: l).
Proof.
  induction l as [|x r IH]; simpl; [reflexivity|].
  destruct (_ <=? _); [reflexivity|].
  etransitivity; [apply perm_skip; exact IH | apply perm_swap].
Qed.

Lemma insertByUpdatedAt_sorted (e : jsstring * Conversation.t)
    (l : ConversationMap) :
  StronglySorted newerFirst l ->
  StronglySorted newerFirst (insertByUpdatedAt e l).
Proof.
  induction 1 as [|x r Hs IH Hx]; simpl.
  - constructor; constructor.
  - destruct (N.leb_spec (Conversation.updatedAt (snd x))
                         (Conversation.updatedAt (snd e))) as [Hle|Hgt].
    + constructor; [constructor; assumption|].
      constructor; [exact Hle|].
      rewrite Forall_forall in *. intros y Hy. specialize (Hx y Hy).
      unfold newerFirst in *. lia.
    + constructor; [exact IH|].
      apply (@Permutation_Forall _ (newerFirst x) (e :: r)).
      * symmetry. apply insertByUpdatedAt_perm.
      * constructor; [unfold newerFirst; lia | exact Hx].
Qed.

(** X6.  The sidebar lists exactly the stored conversations, each once,
    ordered by last update, newest first. *)
Theorem conversation_list_sorted :
  forall s : Ui.State,
    Permutation (getConversationList s) (Ui.conversations s)
    /\ StronglySorted newerFirst (getConversationList s).
Proof.
  intros s. unfold getConversationList, sortByUpdatedAt.
  induction (Ui.conversations s) as [|e l [IHp IHs]]; simpl.
  - split; constructor.
  - split.
    + etransitivity; [apply insertByUpdatedAt_perm|].
      apply perm_skip. exact IHp.
    + apply insertByUpdatedAt_sorted. exact IHs.
Qed.

Lemma objGet_objSet_other (k k' : jsstring) (v : Conversation.t)
    (m : ConversationMap) :
  k <> k' -> objGet k (objSet k' v m) = objGet k m.
Proof.
  intros Hne. induction m as [|[k0 v0] m IH]; simpl.
  - assert (E : str_eqb k' k = false) by (apply str_eqb_neq; congruence).
    rewrite E. reflexivity.
  - destruct (str_eqb k0 k') eqn:E0; simpl.
    + apply str_eqb_eq in E0. subst k0.
      assert (E : str_eqb k' k = false) by (apply str_eqb_neq; congruence).
      rewrite E. reflexivity.
    + destruct (str_eqb k0 k); [reflexivity | exact IH].
Qed.

Lemma save_frame_other (now : N) (s : Ui.State) (k : jsstring) :
  Ui.conversationId s <> Some k ->
  objGet k (Ui.conversations (saveTurnsEffect now s))
  = objGet k (Ui.conversations s).
Proof.
  intros Hk. unfold saveTurnsEffect.
  destruct (Ui.conversationId s) as [c|] eqn:Ec; simpl; [|reflexivity].
  destruct (truthy c); simpl; [|reflexivity].
  destruct (filter isCompleteTurn (Ui.turns s)) as [|t ts]; simpl;
    [reflexivity|].
  apply objGet_objSet_other. congruence.
Qed.

(** X7.  The save effect writes the active conversation only: every other
    stored conversation is left as it is; the feed, the active pointer and
    the pending turn are not touched; and nothing is written when no
    conversation is active or when no turn passes the filter. *)
Theorem save_touches_active_only :
  forall (now : N) (s : Ui.State),
    (forall k, Ui.conversationId s <> Some k ->
       objGet k (Ui.conversations (saveTurnsEffect now s))
       = objGet k (Ui.conversations s))
    /\ Ui.turns (saveTurnsEffect now s) = Ui.turns s
    /\ Ui.conversationId (saveTurnsEffect now s) = Ui.conversationId s
    /\ Ui.pendingTurn (saveTurnsEffect now s) = Ui.pendingTurn s
    /\ (Ui.conversationId s = None -> saveTurnsEffect now s = s)
    /\ (filter isCompleteTurn (Ui.turns s) = [] -> saveTurnsEffect now s = s).
Proof.
  intros now s. unfold saveTurnsEffect.
  destruct (Ui.conversationId s) as [c|] eqn:Ec; simpl;
    [|repeat split; congruence].
  destruct (truthy c); simpl; [|repeat split; congruence].
  destruct (filter isCompleteTurn (Ui.turns s)) as [|t ts] eqn:Ef; simpl;
    [repeat split; congruence|].
  split; [|repeat split; congruence].
  intros k Hk. apply objGet_objSet_other. congruence.
Qed.

Lemma save_touches_active_only_witness :
  objGet (js "a")
    (Ui.conversations (saveTurnsEffect 50 sampleThreeConversations))
  = objGet (js "a") (Ui.conversations sampleThreeConversations).
Proof.
  apply (proj1 (save_touches_active_only 50 sampleThreeConversations)).
  vm_compute. discriminate.
Defined.

(** ** Deleting a conversation *)

(** What [handleConfirmDelete] does once a target is set. *)
Lemma handleConfirmDelete_result (s : Ui.State) (target : jsstring) :
  DeleteDialog.conversationId (Ui.deleteConfirmDialog s) = Some target ->
  target <> [] ->
  let s' := handleConfirmDelete s in
  Ui.conversations s' = objDelete target (Ui.conversations s)
  /\ Ui.pendingTurn s' = Ui.pendingTurn s
  /\ Ui.deleteConfirmDialog s'
     = {| DeleteDialog.isOpen := false; DeleteDialog.conversationId := None |}
  /\ (Ui.conversationId s <> Some target ->
      Ui.conversationId s' = Ui.conversationId s /\ Ui.turns s' = Ui.turns s)
  /\ (Ui.conversationId s = Some target ->
      Ui.conversationId s' = None
      \/ exists k conv, Ui.conversationId s' = Some k /\ k <> target
                        /\ objGet k (Ui.conversations s) = Some conv).
Proof.
  intros Hdlg Hne s'. subst s'. unfold handleConfirmDelete.
  rewrite Hdlg. simpl truthy_opt. apply truthy_nonempty in Hne. rewrite Hne.
  simpl negb. cbv iota. simpl or_empty.
  destruct (opt_str_eqb (Some target) (Ui.conversationId s)) eqn:Eact.
  - assert (Hact : Ui.conversationId s = Some target).
    { destruct (Ui.conversationId s) as [c|]; [|discriminate].
      simpl in Eact. apply str_eqb_eq in Eact. congruence. }
    set (remainingIds := filter _ (objKeys (Ui.conversations s))).
    destruct remainingIds as [|k0 rest] eqn:Erem.
    + simpl. repeat split; try congruence. intros _. left. reflexivity.
    + set (k := last (k0 :: rest) []).
      assert (Hin : In k (filter (fun k => negb (str_eqb k target))
                            (objKeys (Ui.conversations s)))).
      { fold remainingIds. rewrite Erem. apply last_in. discriminate. }
      apply filter_In in Hin. destruct Hin as [Hkey Hk].
      apply negb_true_iff in Hk.
      destruct (objGet_of_key _ _ Hkey) as [conv Hconv].
      simpl Nat.ltb. cbv iota. unfold switchConversation.
      rewrite Hact. simpl opt_str_eqb. rewrite Hk, Hconv. simpl.
      repeat split; try congruence.
      intros _. right. exists k, conv. repeat split; try assumption.
      apply str_eqb_neq. exact Hk.
  - simpl. repeat split; try congruence.
    intros H. rewrite H in Eact. simpl in Eact. rewrite str_eqb_refl in Eact.
    discriminate.
Qed.

Lemma objKeys_objDelete (k : jsstring) (m : ConversationMap) :
  objKeys (objDelete k m)
  = filter (fun k' => negb (str_eqb k' k)) (objKeys m).
Proof.
  induction m as [|[k0 v0] m IH]; simpl; [reflexivity|].
  destruct (str_eqb k0 k); simpl; rewrite IH; reflexivity.
Qed.

(** X8.  Confirming a deletion removes the target from the store and
    nothing else: every other conversation keeps its entry and the keys
    keep their order.  When the target is not the active conversation, the
    active pointer and the feed stay as they are.  The pending turn is
    never touched, and without a target nothing happens at all. *)
Theorem delete_removes_target_only :
  forall (s : Ui.State),
    (DeleteDialog.conversationId (Ui.deleteConfirmDialog s) = None ->
     handleConfirmDelete s = s)
    /\ (forall target,
          DeleteDialog.conversationId (Ui.deleteConfirmDialog s) = Some target ->
          target <> [] ->
          let s' := handleConfirmDelete s in
          objGet target (Ui.conversations s') = None
          /\ (forall k, k <> target ->
                objGet k (Ui.conversations s') = objGet k (Ui.conversations s))
          /\ objKeys (Ui.conversations s')
             = filter (fun k => negb (str_eqb k target))
                      (objKeys (Ui.conversations s))
          /\ Ui.pendingTurn s' = Ui.pendingTurn s
          /\ (Ui.conversationId s <> Some target ->
              Ui.conversationId s' = Ui.conversationId s
              /\ Ui.turns s' = Ui.turns s)).
Proof.
  intros s. split.
  - intros H. unfold handleConfirmDelete. rewrite H. reflexivity.
  - intros target Hdlg Hne s'.
    destruct (handleConfirmDelete_result s Hdlg Hne)
      as (Hc & Hp & _ & Hother & _).
    fold s' in Hc, Hp, Hother. rewrite Hc.
    split; [apply objGet_objDelete_same|].
    split; [intros k Hk; apply objGet_objDelete_other; exact Hk|].
    split; [apply objKeys_objDelete|]. split; assumption.
Qed.

Lemma delete_removes_target_only_witness :
  objGet (js "c")
    (Ui.conversations (handleConfirmDelete sampleThreeConversations)) = None
  /\ objKeys (Ui.conversations (handleConfirmDelete sampleThreeConversations))
     = [js "a"; js "b"].
Proof.
  destruct (proj2 (delete_removes_target_only sampleThreeConversations)
              (js "c") eq_refl ltac:(discriminate))
    as (H1 & _ & H3 & _).
  split; [exact H1 | exact H3].
Defined.

(** X9.  Deleting never leaves the active pointer dangling: if it was null
    or named a stored conversation before, it is null or names a stored
    conversation afterwards. *)
Theorem delete_keeps_active_stored :
  forall s : Ui.State, activeStored s -> activeStored (handleConfirmDelete s).
Proof.
  intros s Hs.
  destruct (DeleteDialog.conversationId (Ui.deleteConfirmDialog s))
    as [target|] eqn:Hdlg.
  - destruct target as [|c r] eqn:Et.
    + unfold handleConfirmDelete. rewrite Hdlg. exact Hs.
    + rewrite <- Et in Hdlg.
      assert (Hne : target <> []) by (rewrite Et; discriminate).
      destruct (handleConfirmDelete_result s Hdlg Hne)
        as (Hc & _ & _ & Hother & Hactive).
      unfold activeStored in *. rewrite Hc.
      destruct (Ui.conversationId s) as [a|] eqn:Ea.
      * destruct (jsstring_dec a target) as [->|Hneq].
        -- destruct (Hactive eq_refl) as [-> | (k & conv & -> & Hk & Hget)];
             [exact I|].
           exists conv. rewrite objGet_objDelete_other; assumption.
        -- destruct Hother as [-> _]; [congruence|].
           destruct Hs as [conv Hget]. exists conv.
           rewrite objGet_objDelete_other; assumption.
      * destruct Hother as [-> _]; [discriminate | exact I].
  - unfold handleConfirmDelete. rewrite Hdlg. exact Hs.
Qed.

Lemma delete_keeps_active_stored_witness :
  activeStored (handleConfirmDelete sampleThreeConversations).
Proof.
  apply delete_keeps_active_stored.
  exists (snd (sampleConversation (js "c") (js "third") 40)).
  vm_compute. reflexivity.
Defined.

(** X10.  A deleted conversation stays deleted when the save effect runs
    next: the effect writes under the active id, which is never the deleted
    one. *)
Theorem deleted_conversation_is_not_saved_again :
  forall (s : Ui.State) (target : jsstring) (now : N),
    DeleteDialog.conversationId (Ui.deleteConfirmDialog s) = Some target ->
    target <> [] ->
    objGet target
      (Ui.conversations (saveTurnsEffect now (handleConfirmDelete s))) = None.
Proof.
  intros s target now Hdlg Hne.
  destruct (handleConfirmDelete_result s Hdlg Hne)
    as (Hc & _ & _ & Hother & Hactive).
  assert (Hid : Ui.conversationId (handleConfirmDelete s) <> Some target).
  { destruct (Ui.conversationId s) as [a|] eqn:Ea.
    - destruct (jsstring_dec a target) as [->|Hneq].
      + destruct (Hactive eq_refl) as [-> | (k & conv & -> & Hk & _)];
          congruence.
      + destruct Hother as [-> _]; congruence.
    - destruct Hother as [-> _]; discriminate. }
  rewrite (@save_frame_other now (handleConfirmDelete s) target Hid).
  rewrite Hc. apply objGet_objDelete_same.
Qed.

Lemma deleted_conversation_is_not_saved_again_witness :
  objGet (js "c")
    (Ui.conversations
       (saveTurnsEffect 60 (handleConfirmDelete sampleThreeConversations)))
  = None.
Proof.
  apply deleted_conversation_is_not_saved_again; [reflexivity | discriminate].
Defined.

(** ** Reloading the page *)

Lemma loadOnMount_cells (st : Storage.t) :
  let s' := loadOnMount st Ui.initial in
  Ui.conversations s'
    = match Storage.conversations st with Some m => m | None => [] end
  /\ Ui.pendingTurn s' = None
  /\ Ui.modalTurnId s' = None
  /\ (forall c, Ui.conversationId s' = Some c ->
        Storage.activeConversation st = Some c
        /\ exists m conv,
             Storage.conversations st = Some m
             /\ objGet c m = Some conv
             /\ Ui.turns s'
                = map rehydrate
                    (filter isCompleteTurn (Conversation.turns conv)))
  /\ (Ui.conversationId s' = None -> Ui.turns s' = []).
Proof.
  unfold loadOnMount.
  destruct (Storage.conversations st) as [m|];
    destruct (Storage.activeConversation st) as [a|]; simpl truthy_opt;
    try (destruct (truthy a)); simpl or_empty; cbv iota;
    try (destruct (objGet a m) as [conv|] eqn:Eg);
    cbn -[objGet rehydrate isCompleteTurn];
    repeat split; try discriminate.
  - congruence.
  - injection H as <-. exists m, conv. auto.
Qed.

(** The cells of a reloaded state, from the state before. *)
Lemma reload_restores_store_cells (s : Ui.State) :
  Ui.conversations (reload s) = Ui.conversations s
  /\ (Ui.turns (reload s) = []
      \/ exists c conv,
           objGet c (Ui.conversations s) = Some conv
           /\ Ui.turns (reload s)
              = map rehydrate (filter isCompleteTurn (Conversation.turns conv))).
Proof.
  unfold reload.
  destruct (loadOnMount_cells (persist s emptyStorage))
    as (Hc & _ & _ & Hid & Hnone).
  assert (Hsame : Ui.conversations (loadOnMount (persist s emptyStorage) Ui.initial)
                  = Ui.conversations s).
  { rewrite Hc. unfold persist, saveActiveConversationEffect,
      saveConversationsEffect. simpl.
    destruct (Ui.conversations s); reflexivity. }
  split; [exact Hsame|].
  destruct (Ui.conversationId (loadOnMount (persist s emptyStorage) Ui.initial))
    as [c|] eqn:E; [|left; apply Hnone; reflexivity].
  right. destruct (Hid c eq_refl) as (_ & m & conv & Hs & Hg & Ht).
  exists c, conv. split; [|exact Ht].
  unfold persist, saveActiveConversationEffect, saveConversationsEffect in Hs.
  simpl in Hs. destruct (Nat.ltb 0 _); [|discriminate]. congruence.
Qed.

(** X11.  The store survives a reload unchanged, whatever it holds.  The
    pending turn and the open modal do not survive.  A conversation is
    active after the reload only if it was active before and is in the
    store; the feed then shows its stored turns that pass the filter, with
    the defaults applied; otherwise the feed is empty. *)
Theorem reload_restores_store :
  forall s : Ui.State,
    Ui.conversations (reload s) = Ui.conversations s
    /\ Ui.pendingTurn (reload s) = None
    /\ Ui.modalTurnId (reload s) = None
    /\ (forall c, Ui.conversationId (reload s) = Some c ->
          Ui.conversationId s = Some c
          /\ exists conv,
               objGet c (Ui.conversations s) = Some conv
               /\ Ui.turns (reload s)
                  = map rehydrate
                      (filter isCompleteTurn (Conversation.turns conv)))
    /\ (Ui.conversationId (reload s) = None -> Ui.turns (reload s) = []).
Proof.
  intros s. unfold reload.
  destruct (loadOnMount_cells (persist s emptyStorage))
    as (Hc & Hp & Hm & Hid & Hnone).
  split; [|split; [exact Hp|]; split; [exact Hm|]; split; [|exact Hnone]].
  - rewrite Hc. unfold persist, saveActiveConversationEffect,
      saveConversationsEffect. simpl.
    destruct (Ui.conversations s); reflexivity.
  - intros c H. destruct (Hid c H) as (Ha & m & conv & Hs & Hg & Ht).
    unfold persist, saveActiveConversationEffect, saveConversationsEffect
      in Ha, Hs. simpl in Ha, Hs.
    split.
    + destruct (truthy_opt (Ui.conversationId s)); [exact Ha | discriminate].
    + exists conv. split; [|exact Ht].
      destruct (Nat.ltb 0 _); [|discriminate]. congruence.
Qed.

Lemma or_null_idempotent (o : option jsstring) :
  or_null (or_null o) = or_null o.
Proof. destruct o as [[|c r]|]; reflexivity. Qed.

(** X12.  The defaults applied to a stored turn are stable: applying them
    again changes nothing, so switching to a conversation, saving it and
    switching back shows the same turns. *)
Theorem rehydrate_idempotent :
  forall t : Turn, rehydrate (rehydrate t) = rehydrate t.
Proof.
  intros [i c o m it tp rp rs ep fa dr pf st cv ii sr].
  unfold rehydrate. simpl. rewrite !or_null_idempotent.
  f_equal.
  - destruct pf as [[[|x y]|l]|]; reflexivity.
  - destruct st; reflexivity.
  - destruct sr; reflexivity.
Qed.

Lemma reload_restores_store_witness :
  Ui.conversationId (saveTurnsEffect 10 sampleOneAnswered) = Some (js "c-1").
Proof.
  apply (proj1 (proj2 (proj2 (proj2 (reload_restores_store
                  (saveTurnsEffect 10 sampleOneAnswered)))))).
  vm_compute. reflexivity.
Defined.

(** ** Submitting, cancelling, answering without the enhancer *)

(** X13.  Submitting with the enhancer on and then closing the modal hands
    the prompt back: the input holds the text the user typed, the pending
    turn and the modal are gone, and the feed, the store and the active
    conversation are what they were before the submission. *)
Theorem submit_then_cancel_restores_prompt :
  forall (turnId : jsstring) (s : Ui.State),
    Ui.enhancerEnabled s = true ->
    ~ isBlank (Ui.prompt s) ->
    let s' := closeCompareModal (fst (handleSubmit turnId s)) in
    Ui.prompt s' = Ui.prompt s
    /\ Ui.pendingTurn s' = None
    /\ Ui.modalTurnId s' = None
    /\ Ui.draftRewrite s' = []
    /\ Ui.turns s' = Ui.turns s
    /\ Ui.conversations s' = Ui.conversations s
    /\ Ui.conversationId s' = Ui.conversationId s.
Proof.
  intros turnId s Hon Hprompt s'. subst s'. unfold handleSubmit.
  destruct (truthy (trim (Ui.prompt s))) eqn:E;
    [|exfalso; apply Hprompt; apply trim_blank_iff; exact E].
  rewrite Hon. simpl. unfold closeCompareModal. simpl.
  destruct (Ui.prompt s) as [|c r] eqn:Ep; [discriminate E|].
  simpl. repeat split.
Qed.

Lemma submit_then_cancel_restores_prompt_witness :
  Ui.prompt (closeCompareModal (fst (handleSubmit sampleId sampleReady)))
  = js "What is reinforcement learning?".
Proof.
  refine (proj1 (@submit_then_cancel_restores_prompt sampleId sampleReady
                   eq_refl _)).
  intros H. apply trim_blank_iff in H. vm_compute in H. discriminate H.
Defined.





(** ** From the rewrite to the answer call *)

Lemma isEdited_unfold (turn : Turn) (d r : jsstring) :
  rewritten_prompt turn = Some r -> r <> [] ->
  isEdited turn d = negb (str_eqb d r) && negb (str_eqb d []).
Proof.
  intros Hr Hne. unfold isEdited. rewrite Hr. simpl.
  apply truthy_nonempty in Hne. rewrite Hne. reflexivity.
Qed.

(** X15.  When the classify call of a submission resolves with a non-empty
    rewritten prompt R, the draft box holds R (the draft effect agrees) and
    the pending turn awaits the choice.  Taking [Use This Version] without
    touching the draft sends R as variant [rewritten] when R has no white
    space around it; when it has, the trimmed R is sent and the variant is
    recorded as [edited]. *)
Theorem untouched_draft_sends_rewrite :
  forall (turnId : jsstring) (s : Ui.State) (data : InteractResponse.t)
         (R : jsstring),
    Ui.enhancerEnabled s = true ->
    ~ isBlank (Ui.prompt s) ->
    InteractResponse.rewritten_prompt data = Some R ->
    R <> [] ->
    let s2 := handleSubmit_resolved s data (fst (handleSubmit turnId s)) in
    Ui.draftRewrite s2 = R
    /\ Ui.draftRewrite (initDraftEffect s2) = R
    /\ (exists p, Ui.pendingTurn s2 = Some p /\ id p = turnId
                  /\ reasoningStage p = Some rewritten
                  /\ rewritten_prompt p = Some R
                  /\ originalPrompt p = Ui.prompt s)
    /\ (trim R = R ->
        exists s3 body,
          choosePromptVersion turnId use_rewritten s2 = (s3, [PostAnswer body])
          /\ AnswerRequest.chosen_version body = use_rewritten
          /\ AnswerRequest.prompt body = R
          /\ AnswerRequest.original_prompt body = Ui.prompt s)
    /\ (trim R <> R -> trim R <> [] ->
        exists s3 body,
          choosePromptVersion turnId use_rewritten s2 = (s3, [PostAnswer body])
          /\ AnswerRequest.chosen_version body = use_edited
          /\ AnswerRequest.prompt body = trim R).
Proof.
  intros turnId s data R Hon Hprompt HR Hne s2.
  assert (Hs1 : exists p0,
            fst (handleSubmit turnId s)
            = setDraftRewrite []
                (setModalTurnId (Some turnId) (setPendingTurn (Some p0) s))
            /\ id p0 = turnId /\ originalPrompt p0 = Ui.prompt s
            /\ edited_prompt p0 = None).
  { unfold handleSubmit.
    destruct (truthy (trim (Ui.prompt s))) eqn:E;
      [|exfalso; apply Hprompt; apply trim_blank_iff; exact E].
    rewrite Hon. simpl. eexists. split; [reflexivity|]. repeat split. }
  destruct Hs1 as (p0 & Hs1 & Hid & Hop & Hep).
  assert (Hdraft : Ui.draftRewrite s2 = R).
  { subst s2. unfold handleSubmit_resolved. rewrite HR. simpl truthy_opt.
    apply truthy_nonempty in Hne. rewrite Hne. reflexivity. }
  assert (Hpend : Ui.pendingTurn s2 = Some (withRewrite data p0)).
  { subst s2. rewrite (proj1 (handleSubmit_resolved_cells _ _ _)), Hs1.
    reflexivity. }
  assert (Hfind : findTurn turnId s2 = Some (withRewrite data p0)).
  { unfold findTurn. rewrite Hpend. simpl id. rewrite Hid, str_eqb_refl.
    reflexivity. }
  assert (Hrp : rewritten_prompt (withRewrite data p0) = Some R) by exact HR.
  split; [exact Hdraft|]. split; [|split].
  - assert (Hmodal : Ui.modalTurnId s2 = Some turnId).
    { subst s2. unfold handleSubmit_resolved. rewrite Hs1.
      unfold adoptConversationId.
      destruct (truthy _ && negb _);
        destruct (truthy_opt (InteractResponse.rewritten_prompt data));
        reflexivity. }
    unfold initDraftEffect, modalTurn. rewrite Hmodal. simpl.
    destruct (truthy turnId); [|exact Hdraft].
    rewrite Hfind. simpl. unfold draftFor. simpl. rewrite Hep, HR.
    reflexivity.
  - exists (withRewrite data p0). repeat split; assumption.
  - destruct (choosePromptVersion_found turnId use_rewritten s2 Hfind)
      as (s3 & Hrun & _).
    rewrite Hdraft in Hrun.
    rewrite (isEdited_unfold (withRewrite data p0) (trim R) Hrp Hne) in Hrun.
    split.
    + intros Htrim. rewrite Htrim, str_eqb_refl in Hrun. simpl in Hrun.
      eexists s3, _. split; [exact Hrun|]. simpl.
      split; [reflexivity|]. split; [|exact Hop].
      unfold promptForAnswer. simpl. rewrite HR. simpl.
      apply truthy_nonempty in Hne. rewrite Hne. reflexivity.
    + intros Htrim Hnb.
      apply str_eqb_neq in Htrim, Hnb. rewrite Htrim, Hnb in Hrun.
      simpl in Hrun. eexists s3, _. split; [exact Hrun|]. simpl.
      split; [reflexivity|]. unfold promptForAnswer. simpl.
      apply str_eqb_neq, truthy_nonempty in Hnb. rewrite Hnb. reflexivity.
Qed.

Lemma untouched_draft_sends_rewrite_witness :
  exists s3 body,
    choosePromptVersion sampleId use_rewritten
      (handleSubmit_resolved sampleReady sampleData
         (fst (handleSubmit sampleId sampleReady)))
    = (s3, [PostAnswer body])
    /\ AnswerRequest.chosen_version body = use_rewritten
    /\ AnswerRequest.prompt body = sampleRewrite.
Proof.
  assert (Hprompt : ~ isBlank (Ui.prompt sampleReady)).
  { intros H. apply trim_blank_iff in H. vm_compute in H. discriminate H. }
  destruct (@untouched_draft_sends_rewrite sampleId sampleReady sampleData
              sampleRewrite eq_refl Hprompt eq_refl ltac:(discriminate))
    as (_ & _ & _ & H & _).
  destruct (H ltac:(vm_compute; reflexivity)) as (s3 & body & H1 & H2 & H3 & _).
  exists s3, body. repeat split; assumption.
Defined.

(** X16.  When a rewritten prompt exists and the button [Use This Version]
    is enabled, the answer call carries exactly the trimmed text of the
    draft box; the variant is [rewritten] when that text is the rewritten
    prompt and [edited] otherwise. *)
Theorem use_this_version_sends_draft :
  forall (s : Ui.State) (turnId : jsstring) (turn : Turn),
    findTurn turnId s = Some turn ->
    truthy_opt (rewritten_prompt turn) = true ->
    useThisVersionDisabled s = false ->
    exists s' body,
      choosePromptVersion turnId use_rewritten s = (s', [PostAnswer body])
      /\ AnswerRequest.prompt body = trim (Ui.draftRewrite s)
      /\ AnswerRequest.chosen_version body
         = (if opt_str_eqb (Some (trim (Ui.draftRewrite s)))
                           (rewritten_prompt turn)
            then use_rewritten else use_edited).
Proof.
  intros s turnId turn Hfind Hrp Hen.
  apply truthy_opt_Some in Hrp. destruct Hrp as (r & Hr & Hne).
  unfold useThisVersionDisabled in Hen. apply negb_false_iff in Hen.
  destruct (choosePromptVersion_found turnId use_rewritten s Hfind)
    as (s' & Hrun & _).
  rewrite (isEdited_unfold turn (trim (Ui.draftRewrite s)) Hr Hne) in Hrun.
  assert (Hd : str_eqb (trim (Ui.draftRewrite s)) [] = false).
  { apply str_eqb_neq. apply truthy_nonempty. exact Hen. }
  rewrite Hd in Hrun. rewrite Hr. simpl opt_str_eqb.
  eexists s', _. split; [exact Hrun|]. simpl.
  unfold promptForAnswer. rewrite Hr.
  destruct (str_eqb (trim (Ui.draftRewrite s)) r) eqn:E; simpl.
  - apply truthy_nonempty in Hne. rewrite Hne.
    apply str_eqb_eq in E. auto.
  - rewrite Hen. auto.
Qed.

Lemma use_this_version_sends_draft_witness :
  exists s' body,
    choosePromptVersion sampleId use_rewritten sampleDraftEdited
    = (s', [PostAnswer body])
    /\ AnswerRequest.prompt body
       = js "Explain reinforcement learning to a child.".
Proof.
  destruct (@use_this_version_sends_draft sampleDraftEdited sampleId
              (withRewrite sampleData samplePendingTurn)
              eq_refl eq_refl eq_refl) as (s' & body & H1 & H2 & _).
  exists s', body. split; [exact H1 | exact H2].
Defined.

(** X17.  The user bubble of a resolved turn shows the prompt that was
    sent: whenever the original version is chosen, or a non-empty rewritten
    prompt exists, the text of the bubble is the prompt of the answer
    call.  Without a rewritten prompt, choosing [rewritten] sends the
    original prompt while the bubble shows nothing. *)
Theorem bubble_shows_what_was_sent :
  forall (s : Ui.State) (turnId : jsstring) (version : PromptChoice)
         (turn : Turn),
    findTurn turnId s = Some turn ->
    (version = use_original \/ truthy_opt (rewritten_prompt turn) = true ->
     exists s' body t',
       choosePromptVersion turnId version s = (s', [PostAnswer body])
       /\ In t' (Ui.turns s') /\ id t' = turnId
       /\ bubblePrompt t' = Some (AnswerRequest.prompt body))
    /\ (version = use_rewritten -> rewritten_prompt turn = None ->
        exists s' body t',
          choosePromptVersion turnId version s = (s', [PostAnswer body])
          /\ In t' (Ui.turns s') /\ id t' = turnId
          /\ bubblePrompt t' = None
          /\ AnswerRequest.prompt body = originalPrompt turn).
Proof.
  intros s turnId version turn Hfind.
  destruct (choosePromptVersion_found turnId version s Hfind)
    as (s' & Hrun & Hin).
  pose proof (findTurn_id _ _ Hfind) as Hid.
  rewrite finalEditedPrompt_cases in Hrun, Hin.
  rewrite actualVersion_cases in Hrun, Hin.
  split.
  - intros Hcase. eexists s', _, _. split; [exact Hrun|].
    split; [exact Hin|]. split; [exact Hid|]. simpl.
    unfold bubblePrompt, promptForAnswer. simpl.
    destruct Hcase as [-> | Hrp]; [reflexivity|].
    apply truthy_opt_Some in Hrp. destruct Hrp as (r & Hr & Hne).
    destruct (isEdited turn (trim (Ui.draftRewrite s))) eqn:E.
    + apply isEdited_spec in E. destruct E as (_ & _ & _ & _ & Hd).
      apply truthy_nonempty in Hd.
      destruct version; simpl; rewrite ?Hd; reflexivity.
    + apply truthy_nonempty in Hne.
      destruct version; simpl; rewrite ?Hr; simpl; rewrite ?Hne; reflexivity.
  - intros -> Hnone. eexists s', _, _. split; [exact Hrun|].
    split; [exact Hin|]. split; [exact Hid|].
    assert (E : isEdited turn (trim (Ui.draftRewrite s)) = false).
    { unfold isEdited. rewrite Hnone. reflexivity. }
    rewrite E. simpl. unfold bubblePrompt, promptForAnswer. simpl.
    rewrite Hnone. split; reflexivity.
Qed.

Lemma bubble_shows_what_was_sent_witness :
  exists s' body t',
    choosePromptVersion sampleId use_rewritten sampleDraftEdited
    = (s', [PostAnswer body])
    /\ In t' (Ui.turns s')
    /\ bubblePrompt t' = Some (AnswerRequest.prompt body).
Proof.
  destruct (proj1 (@bubble_shows_what_was_sent sampleDraftEdited sampleId
                     use_rewritten (withRewrite sampleData samplePendingTurn)
                     eq_refl) (or_intror eq_refl))
    as (s' & body & t' & H1 & H2 & _ & H4).
  exists s', body, t'. repeat split; assumption.
Defined.

(** ** The modal *)

(** X18.  For the turn the modal is about, at least one of the three modal
    blocks is rendered, and the reasoning modal is never rendered together
    with the enhancing or the answering block.  The two choice buttons are
    offered only for a turn without a chosen variant, with an intent, that
    is neither classifying nor answering.  Without a modal turn no block is
    rendered. *)
Theorem modal_blocks_cover :
  forall s : Ui.State,
    (forall t, modalTurn s = Some t ->
       showsEnhancingModal s || showsReasoningModal s || showsAnsweringModal s
       = true
       /\ (showsReasoningModal s = true ->
           showsEnhancingModal s = false /\ showsAnsweringModal s = false)
       /\ (choiceOffered s = true ->
           chosenPromptVersion t = None /\ intent t <> None
           /\ reasoningStage t <> Some classifying
           /\ reasoningStage t <> Some answering))
    /\ (modalTurn s = None ->
        showsEnhancingModal s = false /\ showsReasoningModal s = false
        /\ showsAnsweringModal s = false /\ choiceOffered s = false).
Proof.
  intros s. unfold choiceOffered, showsEnhancingModal, showsReasoningModal,
    showsAnsweringModal. split.
  - intros t ->. unfold stageIs, isPreChoice, isNull.
    destruct (reasoningStage t) as [[]|]; destruct (intent t);
      destruct (chosenPromptVersion t); simpl;
      repeat split; try reflexivity; try discriminate;
      intros; try discriminate; try congruence.
  - intros ->. repeat split.
Qed.

Lemma modal_blocks_cover_witness :
  showsEnhancingModal sampleClassifying = true
  /\ showsReasoningModal sampleAwaitingChoice = true
  /\ showsEnhancingModal sampleAwaitingChoice = false.
Proof.
  split; [reflexivity|].
  assert (H : showsReasoningModal sampleAwaitingChoice = true) by reflexivity.
  split; [exact H|].
  exact (proj1 (proj1 (proj2 (proj1 (modal_blocks_cover sampleAwaitingChoice)
                                _ eq_refl)) H)).
Defined.

(** X19.  After a failed classification the turn stays pending (nothing is
    added to the feed) and the reasoning modal offers the choice.  Using
    the original prompt then moves the turn to the feed in stage
    [answering], drops the error text from its answer, and issues the
    answer call with the original prompt and the intent [error]. *)
Theorem failed_classification_can_still_be_answered :
  forall (s : Ui.State) (p : Turn) (message : jsstring),
    Ui.pendingTurn s = Some p ->
    Ui.modalTurnId s = Some (id p) ->
    id p <> [] ->
    chosenPromptVersion p = None ->
    let s1 := handleSubmit_rejected message s in
    Ui.turns s1 = Ui.turns s
    /\ showsReasoningModal s1 = true
    /\ choiceOffered s1 = true
    /\ exists s2 body t',
         choosePromptVersion (id p) use_original s1 = (s2, [PostAnswer body])
         /\ AnswerRequest.prompt body = originalPrompt p
         /\ AnswerRequest.chosen_version body = use_original
         /\ AnswerRequest.intent body = Some (js "error")
         /\ In t' (Ui.turns s2) /\ id t' = id p
         /\ reasoningStage t' = Some answering
         /\ final_answer t' = None.
Proof.
  intros s p message Hp Hmodal Hid Hchosen s1.
  assert (Hpend : Ui.pendingTurn s1
                  = Some (withClassificationError message p)).
  { subst s1. unfold handleSubmit_rejected. simpl. rewrite Hp. reflexivity. }
  assert (Hfind : findTurn (id p) s1
                  = Some (withClassificationError message p)).
  { unfold findTurn. rewrite Hpend. simpl id. rewrite str_eqb_refl.
    reflexivity. }
  assert (Hmt : modalTurn s1 = Some (withClassificationError message p)).
  { unfold modalTurn.
    assert (E : Ui.modalTurnId s1 = Some (id p)) by exact Hmodal.
    rewrite E. simpl. apply truthy_nonempty in Hid. rewrite Hid. exact Hfind. }
  split; [reflexivity|].
  assert (Hshow : showsReasoningModal s1 = true).
  { unfold showsReasoningModal. rewrite Hmt. reflexivity. }
  split; [exact Hshow|]. split.
  - unfold choiceOffered. rewrite Hshow, Hmt. unfold isPreChoice. simpl.
    rewrite Hchosen. reflexivity.
  - destruct (choosePromptVersion_found (id p) use_original s1 Hfind)
      as (s2 & Hrun & Hin).
    eexists s2, _, _. split; [exact Hrun|]. simpl.
    split; [reflexivity|]. split; [reflexivity|]. split; [reflexivity|].
    split; [exact Hin|]. repeat split.
Qed.

Lemma failed_classification_can_still_be_answered_witness :
  choiceOffered (handleSubmit_rejected (js "Failed to fetch") sampleClassifying)
  = true.
Proof.
  exact (proj1 (proj2 (proj2 (@failed_classification_can_still_be_answered
           sampleClassifying samplePendingTurn (js "Failed to fetch")
           eq_refl eq_refl ltac:(discriminate) eq_refl)))).
Defined.

(** ** Turns whose id is not known *)

Lemma findTurn_none (turnId : jsstring) (s : Ui.State) :
  findTurn turnId s = None ->
  find (fun t => str_eqb (id t) turnId) (Ui.turns s) = None.
Proof.
  unfold findTurn. destruct (Ui.pendingTurn s) as [p|]; [|auto].
  destruct (str_eqb (id p) turnId); [discriminate | auto].
Qed.

(** X20.  An operation on a turn id the component does not hold is
    absorbed.  [choosePromptVersion] and [handleRegenerate] issue no call
    and leave the feed, the pending turn and the store as they are (the
    former still closes the modal and clears the input).  A response for a
    turn that is no longer in the feed, for instance after a switch of
    conversation, changes no turn. *)
Theorem unknown_turn_is_ignored :
  forall (s : Ui.State) (turnId : jsstring),
    (findTurn turnId s = None ->
     (forall version,
        exists s', choosePromptVersion turnId version s = (s', [])
                   /\ Ui.turns s' = Ui.turns s
                   /\ Ui.pendingTurn s' = Ui.pendingTurn s
                   /\ Ui.conversations s' = Ui.conversations s
                   /\ Ui.modalTurnId s' = None /\ Ui.prompt s' = [])
     /\ handleRegenerate turnId s = (s, []))
    /\ (find (fun t => str_eqb (id t) turnId) (Ui.turns s) = None ->
        (forall answer,
           Ui.turns (fst (choosePromptVersion_resolved turnId answer s))
           = Ui.turns s)
        /\ (forall message,
              Ui.turns (fst (choosePromptVersion_rejected turnId message s))
              = Ui.turns s)
        /\ (forall message,
              Ui.turns (handleSubmit_direct_rejected turnId message s)
              = Ui.turns s)
        /\ (forall render data,
              Ui.turns (handleSubmit_direct_resolved render turnId data s)
              = Ui.turns s)).
Proof.
  intros s turnId. split.
  - intros Hnone. split.
    + intros version. unfold choosePromptVersion. rewrite Hnone.
      eexists. split; [reflexivity|]. repeat split.
    + unfold handleRegenerate. rewrite Hnone. reflexivity.
  - intros Hnone. repeat split; intros.
    + simpl. apply mapTurn_absent. exact Hnone.
    + simpl. apply mapTurn_absent. exact Hnone.
    + simpl. apply mapTurn_absent. exact Hnone.
    + rewrite (proj2 (handleSubmit_direct_resolved_cells render turnId data s)).
      apply mapTurn_absent. exact Hnone.
Qed.

Lemma unknown_turn_is_ignored_witness :
  handleRegenerate (js "turn-9") sampleAnswering = (sampleAnswering, []).
Proof.
  exact (proj2 (proj1 (unknown_turn_is_ignored sampleAnswering (js "turn-9"))
                  eq_refl)).
Defined.

(** ** Turns before the choice stay out of the feed and the store *)

Lemma rehydrate_pastChoice (t : Turn) : pastChoice t -> pastChoice (rehydrate t).
Proof.
  unfold pastChoice. simpl. intros [-> | ->]; auto.
Qed.

Lemma Forall_map_rehydrate_pastChoice (ts : list Turn) :
  Forall pastChoice ts -> Forall pastChoice (map rehydrate ts).
Proof.
  intros H. apply Forall_forall. intros x Hx. apply in_map_iff in Hx.
  destruct Hx as (t & <- & Hin). apply rehydrate_pastChoice.
  rewrite Forall_forall in H. auto.
Qed.

Lemma stored_turns_pastChoice (m : ConversationMap) (k : jsstring)
    (conv : Conversation.t) :
  Forall (fun e => Forall pastChoice (Conversation.turns (snd e))) m ->
  objGet k m = Some conv ->
  Forall pastChoice (Conversation.turns conv).
Proof.
  intros Hall Hget. destruct (objGet_In _ _ Hget) as [k' Hin].
  rewrite Forall_forall in Hall. exact (Hall _ Hin).
Qed.

Lemma perform_keeps_feed (op : Operation) (s : Ui.State) :
  feedInvariant s -> feedInvariant (perform op s).
Proof.
  intros (Ht & Hc).
  assert (Hdone : forall turnId f,
            (forall t, reasoningStage (f t) = Some done) ->
            Forall pastChoice (mapTurn turnId f (Ui.turns s))).
  { intros turnId f Hf. apply Forall_mapTurn; [|exact Ht].
    intros t _ _. right. apply Hf. }
  destruct op; simpl perform.
  - unfold handleSubmit.
    destruct (negb (truthy (trim (Ui.prompt s)))); [split; assumption|].
    destruct (negb (Ui.enhancerEnabled s)); simpl; split; simpl;
      try assumption.
    apply Forall_app. split; [exact Ht|].
    constructor; [left; reflexivity | constructor].
  - destruct (handleSubmit_direct_resolved_cells render turnId data s)
      as [_ E].
    destruct (adoptConversationId_frame render data s) as (_ & _ & E3).
    split; [rewrite E; apply Hdone; reflexivity|].
    unfold handleSubmit_direct_resolved. simpl. rewrite E3. exact Hc.
  - split; [apply Hdone; reflexivity | exact Hc].
  - destruct (handleSubmit_resolved_cells render data s) as [_ E].
    destruct (adoptConversationId_frame render data s) as (_ & _ & E3).
    split; [rewrite E; exact Ht|].
    unfold handleSubmit_resolved.
    destruct (truthy_opt _); simpl; rewrite E3; exact Hc.
  - split; assumption.
  - destruct (closeCompareModal_cells s) as [_ E].
    split; [rewrite E; exact Ht|].
    unfold closeCompareModal. destruct (Ui.pendingTurn s) as [q|];
      [destruct (truthy (originalPrompt q))|]; exact Hc.
  - unfold choosePromptVersion.
    destruct (findTurn turnId s) as [turn|]; [|split; assumption].
    set (a := actualVersion _ _). set (e := finalEditedPrompt _ _ _).
    assert (Hmap : Forall pastChoice
                     (mapTurn turnId (withChoice a e) (Ui.turns s))).
    { apply Forall_mapTurn; [|exact Ht]. intros t _ _. left. reflexivity. }
    destruct (Ui.pendingTurn s) as [q|];
      [destruct (str_eqb (id q) turnId)|]; simpl; split; simpl;
      try assumption.
    apply Forall_app. split; [exact Ht|].
    constructor; [left; reflexivity | constructor].
  - split; [apply Hdone; reflexivity | exact Hc].
  - split; [apply Hdone; reflexivity | exact Hc].
  - unfold handleRegenerate_resolved. destruct (isPending turnId render);
      simpl; split; simpl; try assumption.
    apply Forall_mapTurn; [|exact Ht].
    intros t Hin _. rewrite Forall_forall in Ht. exact (Ht t Hin).
Qed.

Lemma switchConversation_keeps_feed (s : Ui.State) (target : jsstring)
    (s1 : Ui.State) :
  feedInvariant s -> feedInvariant s1 ->
  feedInvariant (switchConversation s target s1).
Proof.
  intros (_ & Hc) (Ht1 & Hc1). unfold switchConversation.
  destruct (opt_str_eqb (Some target) (Ui.conversationId s));
    [split; assumption|].
  destruct (objGet target (Ui.conversations s)) as [conv|] eqn:E;
    [|split; assumption].
  split; [|exact Hc1]. simpl. apply Forall_map_rehydrate_pastChoice.
  eapply stored_turns_pastChoice; [exact Hc | exact E].
Qed.

Lemma run_keeps_feed (e : Event) (s : Ui.State) :
  feedInvariant s -> feedInvariant (run e s).
Proof.
  intros Hinv. destruct e; simpl run;
    try (destruct Hinv as (Ht & Hc); split; assumption).
  - apply perform_keeps_feed. exact Hinv.
  - destruct Hinv as (Ht & Hc). unfold saveTurnsEffect.
    destruct (negb (truthy_opt (Ui.conversationId s))); [split; assumption|].
    destruct (Nat.ltb 0 _); [|split; assumption].
    split; [exact Ht|]. simpl.
    apply Forall_objSet; [|exact Hc].
    intros k'. simpl. apply Forall_filter. exact Ht.
  - destruct Hinv as (Ht & Hc). split; [constructor | exact Hc].
  - apply switchConversation_keeps_feed; assumption.
  - unfold handleConfirmDelete.
    destruct (negb (truthy_opt _)); [exact Hinv|].
    set (target := or_empty _).
    assert (H1 : feedInvariant
                   (setConversations (objDelete target (Ui.conversations s)) s)).
    { destruct Hinv as (Ht & Hc). split; [exact Ht|]. simpl.
      apply Forall_filter. exact Hc. }
    assert (H2 : forall s2, feedInvariant s2 ->
                 feedInvariant
                   (setDeleteConfirmDialog
                      {| DeleteDialog.isOpen := false;
                         DeleteDialog.conversationId := None |} s2)).
    { intros s2 (Ht & Hc). split; assumption. }
    apply H2.
    destruct (opt_str_eqb (Some target) (Ui.conversationId s)); [|exact H1].
    destruct (Nat.ltb 0 _).
    + apply switchConversation_keeps_feed; assumption.
    + destruct H1 as (Ht & Hc). split; [constructor | exact Hc].
  - destruct Hinv as (Ht & Hc).
    destruct (reload_restores_store_cells s) as (E1 & E2).
    split.
    + destruct E2 as [-> | (c & conv & Hg & ->)]; [constructor|].
      apply Forall_map_rehydrate_pastChoice, Forall_filter.
      eapply stored_turns_pastChoice; [exact Hc | exact Hg].
    + rewrite E1. exact Hc.
Qed.

(** X21.  In every state reached from the initial one, no turn of the chat
    feed and no stored turn is in stage [classifying] or [rewritten]: such
    turns live in the pending cell only, so they are never persisted. *)
Theorem unchosen_turns_are_never_stored :
  forall s : Ui.State,
    reachable s ->
    (forall t, In t (Ui.turns s) ->
       reasoningStage t = Some answering \/ reasoningStage t = Some done)
    /\ (forall k conv t,
          In (k, conv) (Ui.conversations s) ->
          In t (Conversation.turns conv) ->
          reasoningStage t = Some answering \/ reasoningStage t = Some done).
Proof.
  intros s Hreach.
  assert (Hinv : feedInvariant s).
  { induction Hreach as [|e s _ IH _].
    - split; constructor.
    - apply run_keeps_feed. exact IH. }
  destruct Hinv as (Ht & Hc). split.
  - intros t Hin. rewrite Forall_forall in Ht. exact (Ht t Hin).
  - intros k conv t Hin Hin'. rewrite Forall_forall in Hc.
    specialize (Hc _ Hin). simpl in Hc. rewrite Forall_forall in Hc.
    exact (Hc t Hin').
Qed.

Lemma unchosen_turns_are_never_stored_witness :
  (forall t, In t (Ui.turns sampleOriginalAfterEdit) ->
     reasoningStage t = Some answering \/ reasoningStage t = Some done)
  /\ (forall k conv t,
        In (k, conv) (Ui.conversations sampleOriginalAfterEdit) ->
        In t (Conversation.turns conv) ->
        reasoningStage t = Some answering \/ reasoningStage t = Some done).
Proof.
  exact (@unchosen_turns_are_never_stored sampleOriginalAfterEdit
           sampleOriginalAfterEdit_reachable).
Defined.

(** ** Opening the breakdown, regenerating *)

(** X22.  Opening the breakdown of an answered turn of the feed (with an
    intent and a chosen variant, no pending turn of the same id) renders
    the reasoning modal for that turn without the choice buttons; the draft
    box holds the edited prompt if there is one and the rewritten prompt
    otherwise, the draft effect agrees, and the feed is not changed. *)
Theorem breakdown_is_read_only :
  forall (s : Ui.State) (t : Turn),
    find (fun x => str_eqb (id x) (id t)) (Ui.turns s) = Some t ->
    isPending (id t) s = false ->
    id t <> [] ->
    reasoningStage t = Some done ->
    intent t <> None ->
    chosenPromptVersion t <> None ->
    let s' := openCompareModal (id t) s in
    modalTurn s' = Some t
    /\ showsReasoningModal s' = true
    /\ choiceOffered s' = false
    /\ Ui.draftRewrite s'
       = match edited_prompt t with
         | Some e => e
         | None => or_empty (rewritten_prompt t)
         end
    /\ Ui.draftRewrite (initDraftEffect s') = Ui.draftRewrite s'
    /\ Ui.turns s' = Ui.turns s
    /\ Ui.pendingTurn s' = Ui.pendingTurn s.
Proof.
  intros s t Hfind Hpend Hid Hdone Hintent Hchosen s'.
  assert (Hs' : s' = setDraftRewrite (draftFor t)
                       (setModalTurnId (Some (id t)) s)).
  { subst s'. unfold openCompareModal. rewrite Hfind. reflexivity. }
  assert (Hmt : modalTurn s' = Some t).
  { rewrite Hs'. unfold modalTurn. simpl.
    apply truthy_nonempty in Hid. rewrite Hid.
    unfold findTurn. simpl. unfold isPending in Hpend.
    destruct (Ui.pendingTurn s) as [p|]; [rewrite Hpend|]; exact Hfind. }
  assert (Hshow : showsReasoningModal s' = true).
  { unfold showsReasoningModal. rewrite Hmt. unfold stageIs, isNull.
    rewrite Hdone. destruct (intent t); [reflexivity | congruence]. }
  split; [exact Hmt|]. split; [exact Hshow|]. split; [|split; [|split]].
  - unfold choiceOffered. rewrite Hshow, Hmt. unfold isPreChoice, isNull.
    destruct (chosenPromptVersion t); [reflexivity | congruence].
  - rewrite Hs'. reflexivity.
  - unfold initDraftEffect. rewrite Hmt. rewrite Hs'. reflexivity.
  - rewrite Hs'. split; reflexivity.
Qed.

Lemma breakdown_is_read_only_witness :
  choiceOffered (openCompareModal (js "turn-2") sampleTwoAnswered) = false
  /\ Ui.draftRewrite (openCompareModal (js "turn-2") sampleTwoAnswered)
     = sampleRewrite.
Proof.
  destruct (@breakdown_is_read_only sampleTwoAnswered
              (withFinalAnswer (Some (js "Learning from reward."))
                 (withChoice use_rewritten None
                    (withRewrite sampleData
                       {| id := js "turn-2";
                          conversationId := Some (js "c-1");
                          originalPrompt := js "What is reinforcement learning?";
                          mode := Some learning; intent := None; topic := None;
                          rewritten_prompt := None; rewrite_strategy := None;
                          edited_prompt := None; final_answer := None;
                          decisionRationale := None; promptFeedback := None;
                          reasoningStage := Some classifying;
                          chosenPromptVersion := None; interaction_id := None;
                          showReasoning := Some true |})))
              ltac:(vm_compute; reflexivity) ltac:(vm_compute; reflexivity)
              ltac:(discriminate) eq_refl ltac:(discriminate)
              ltac:(discriminate))
    as (_ & _ & H3 & H4 & _).
  split; [exact H3 | exact H4].
Defined.

(** X23.  A regenerate response for the pending turn puts the new rewritten
    prompt in the draft box (the empty string when there is none).  With a
    non-empty rewrite R free of surrounding white space, taking
    [Use This Version] next sends R as variant [rewritten], with the
    interaction id of the new response. *)
Theorem regenerated_rewrite_is_sent :
  forall (s : Ui.State) (p : Turn) (data : InteractResponse.t),
    Ui.pendingTurn s = Some p ->
    let s' := handleRegenerate_resolved s (id p) data s in
    Ui.draftRewrite s'
      = match InteractResponse.rewritten_prompt data with
        | Some r => r
        | None => []
        end
    /\ (forall R,
          InteractResponse.rewritten_prompt data = Some R ->
          R <> [] -> trim R = R ->
          exists s2 body,
            choosePromptVersion (id p) use_rewritten s' = (s2, [PostAnswer body])
            /\ AnswerRequest.prompt body = R
            /\ AnswerRequest.chosen_version body = use_rewritten
            /\ AnswerRequest.original_prompt body = originalPrompt p
            /\ AnswerRequest.interaction_id body
               = Some (InteractResponse.interaction_id data)).
Proof.
  intros s p data Hp s'.
  assert (Hpend : isPending (id p) s = true).
  { unfold isPending. rewrite Hp. apply str_eqb_refl. }
  assert (Hdraft : Ui.draftRewrite s'
                   = or_empty (or_null (InteractResponse.rewritten_prompt data))).
  { subst s'. unfold handleRegenerate_resolved. rewrite Hpend. reflexivity. }
  assert (Hfind : findTurn (id p) s' = Some (withRegeneratedPending data p)).
  { subst s'. unfold handleRegenerate_resolved, findTurn. rewrite Hpend.
    simpl. rewrite Hp. simpl. rewrite str_eqb_refl. reflexivity. }
  split.
  - rewrite Hdraft. destruct (InteractResponse.rewritten_prompt data)
      as [[|c r]|]; reflexivity.
  - intros R HR Hne Htrim.
    assert (Hrp : rewritten_prompt (withRegeneratedPending data p) = Some R).
    { simpl. rewrite HR. apply or_null_fixed. intros H. congruence. }
    assert (HdR : Ui.draftRewrite s' = R).
    { rewrite Hdraft, HR. destruct R; [congruence | reflexivity]. }
    destruct (choosePromptVersion_found (id p) use_rewritten s' Hfind)
      as (s2 & Hrun & _).
    rewrite HdR, Htrim in Hrun.
    rewrite (isEdited_unfold (withRegeneratedPending data p) R Hrp Hne) in Hrun.
    rewrite str_eqb_refl in Hrun. simpl in Hrun.
    eexists s2, _. split; [exact Hrun|]. simpl.
    unfold promptForAnswer. rewrite Hrp. simpl.
    apply truthy_nonempty in Hne. rewrite Hne. repeat split.
Qed.

Lemma regenerated_rewrite_is_sent_witness :
  Ui.draftRewrite
    (handleRegenerate_resolved sampleAwaitingWithoutRewrite sampleId sampleData
       sampleAwaitingWithoutRewrite)
  = sampleRewrite.
Proof.
  exact (proj1 (@regenerated_rewrite_is_sent sampleAwaitingWithoutRewrite
                  (withRewrite sampleDataNoRewrite samplePendingTurn)
                  sampleData eq_refl)).
Defined.

(** * The stage graph *)

(** ** What holds of the feed and of the pending turn in every state *)







(** ** The moves of each operation *)



(** ** The pending turn stays apart from the feed *)




(** ** The sample states are reached *)







